(** * Guest-side ownership primitives of [wit-guest.h]

    A shallow embedding of [crates/cpp/helper-types/wit-guest.h]:
    [wit::string], [wit::vector<T>], [wit::ResourceExportBase<R>] and
    [wit::ResourceImportBase].

    C++ objects live in a store indexed by their address, so that the two
    reference arguments of a move operation may alias.  Every method is a
    computation in a state-and-failure monad over a [world]; the world also
    records the calls the guest makes to the allocator and to the host. *)

From Stdlib Require Import ZArith Lia.
From stdpp Require Import base option list gmap.

Local Open Scope Z_scope.

(** ** The world the header runs in *)

(** Calls that leave the header: to libc's allocator and to the host. *)
Inductive event :=
| EvMalloc (size : Z) (result : Z)
| EvFree (p : Z)
| EvResourceNew (obj : Z) (h : Z)
| EvResourceDrop (h : Z).

(** The two data members shared by [wit::string] ([uint8_t const *data_;
    size_t length;]) and [wit::vector<T>] ([T *data_; size_t length;]). *)
Module buf.
Record t := make { data_ : Z; length : Z }.
End buf.

(** [std::string_view] and [wit::span<T>]: a pointer and a length, not owning. *)
Record string_view := StringView { sv_data : Z; sv_size : Z }.
Record span := Span { span_data : Z; span_size : Z }.

Record world := World {
  mem : gmap Z Byte.byte;      (* linear memory; an unmapped address reads as x00 *)
  live : gmap Z Z;             (* blocks handed out by malloc and not yet freed: base, size *)
  strings : gmap Z buf.t;      (* the wit::string objects, by address *)
  vectors : gmap Z buf.t;      (* the wit::vector<T> objects, by address *)
  exports : gmap Z Z;          (* the [handle] member of each ResourceExportBase<R> object *)
  imports : gmap Z Z;          (* the [handle] member of each ResourceImportBase object *)
  trace : list event           (* the calls made so far, oldest first *)
}.

Definition set_mem (f : gmap Z Byte.byte → gmap Z Byte.byte) (w : world) : world :=
  World (f (mem w)) (live w) (strings w) (vectors w) (exports w) (imports w) (trace w).
Definition set_live (f : gmap Z Z → gmap Z Z) (w : world) : world :=
  World (mem w) (f (live w)) (strings w) (vectors w) (exports w) (imports w) (trace w).
Definition set_strings (f : gmap Z buf.t → gmap Z buf.t) (w : world) : world :=
  World (mem w) (live w) (f (strings w)) (vectors w) (exports w) (imports w) (trace w).
Definition set_vectors (f : gmap Z buf.t → gmap Z buf.t) (w : world) : world :=
  World (mem w) (live w) (strings w) (f (vectors w)) (exports w) (imports w) (trace w).
Definition set_exports (f : gmap Z Z → gmap Z Z) (w : world) : world :=
  World (mem w) (live w) (strings w) (vectors w) (f (exports w)) (imports w) (trace w).
Definition set_imports (f : gmap Z Z → gmap Z Z) (w : world) : world :=
  World (mem w) (live w) (strings w) (vectors w) (exports w) (f (imports w)) (trace w).
Definition log (e : event) (w : world) : world :=
  World (mem w) (live w) (strings w) (vectors w) (exports w) (imports w) (trace w ++ [e]).

Definition empty_world : world := World ∅ ∅ ∅ ∅ ∅ ∅ [].

(** ** Computations *)

Inductive failure :=
| AssertionFailure       (* [assert] fired: the program aborts *)
| UndefinedBehaviour     (* the C++ abstract machine gives the step no meaning *)
| HostFailure.           (* the host did not return from a boundary call *)

Inductive outcome (A : Type) :=
| Ret (a : A) (w : world)
| Stuck (f : failure).
Arguments Ret {A} a w.
Arguments Stuck {A} f.

Definition M (A : Type) : Type := world → outcome A.

#[global] Instance M_ret : MRet M := λ A a w, Ret a w.
#[global] Instance M_bind : MBind M := λ A B k m w,
  match m w with
  | Ret a w' => k a w'
  | Stuck f => Stuck f
  end.

Definition fail {A} (f : failure) : M A := λ _, Stuck f.
Definition modify (f : world → world) : M unit := λ w, Ret tt (f w).
Definition emit (e : event) : M unit := modify (log e).

(** What the calls of a computation were, when it returned. *)
Definition calls_of {A} (w : world) (o : outcome A) : option (list event) :=
  match o with
  | Ret _ w' => Some (drop (base.length (trace w)) (trace w'))
  | Stuck _ => None
  end.

(** ** Build configuration, libc and host *)

(** The two macros the header tests. *)
Class Build := {
  WIT_SYMMETRIC : bool;   (* #ifdef WIT_SYMMETRIC: handles are pointers, not int32_t *)
  NDEBUG : bool           (* <assert.h>: with NDEBUG, assert(e) expands to nothing *)
}.

(** libc's allocator, seen from the header: what [malloc(n)] returns after a
    given history of calls; [0] is the null pointer. *)
Class Libc := {
  malloc_result : list event → Z → Z
}.

(** A resource kind [R], the template argument of [ResourceExportBase<R>]:
    the header uses its static members [R::ResourceNew] and
    [R::ResourceDrop], which generated bindings forward to the host.
    [ResourceNew_result] is the handle the host hands back for the object at
    address [obj] after a given history; [None] when the host does not
    return. *)
Class Resource := {
  ResourceNew_result : list event → Z → option Z
}.

Section libc.
Context {libc : Libc}.

(** [malloc(n)]: a non-null result is a live block from now on. *)
Definition malloc (n : Z) : M Z := λ w,
  let p := malloc_result (trace w) n in
  Ret p (log (EvMalloc n p) (if p =? 0 then w else set_live <[p := n]> w)).

(** [free(p)]: nothing for the null pointer, undefined unless [p] is a live
    block. *)
Definition free (p : Z) : M unit := λ w,
  if p =? 0 then Ret tt (log (EvFree p) w)
  else match live w !! p with
       | Some _ => Ret tt (log (EvFree p) (set_live (delete p) w))
       | None => Stuck UndefinedBehaviour
       end.
End libc.

Definition load_byte (m : gmap Z Byte.byte) (p : Z) : Byte.byte :=
  default Byte.x00 (m !! p).

Fixpoint read_bytes (m : gmap Z Byte.byte) (p : Z) (n : nat) : list Byte.byte :=
  match n with
  | O => []
  | S n' => load_byte m p :: read_bytes m (p + 1) n'
  end.

Fixpoint write_bytes (p : Z) (bs : list Byte.byte) (m : gmap Z Byte.byte) : gmap Z Byte.byte :=
  match bs with
  | [] => m
  | b :: bs' => <[p := b]> (write_bytes (p + 1) bs' m)
  end.

Definition ranges_overlap (p q n : Z) : bool := (p <? q + n) && (q <? p + n).

(** [memcpy(dst, src, n)]: copying nothing does nothing, as in every libc;
    otherwise both pointers must be non-null and the two ranges must not
    overlap, or the behaviour is undefined. *)
Definition memcpy (dst src n : Z) : M unit := λ w,
  if n =? 0 then Ret tt w
  else if (dst =? 0) || (src =? 0) || ranges_overlap dst src n then Stuck UndefinedBehaviour
  else Ret tt (set_mem (write_bytes dst (read_bytes (mem w) src (Z.to_nat n))) w).

(** The characters a view denotes in a given world. *)
Definition view_bytes (w : world) (v : string_view) : list Byte.byte :=
  read_bytes (mem w) (sv_data v) (Z.to_nat (sv_size v)).

Section host.
Context {R : Resource}.

(** [R::ResourceNew(obj)]: the boundary call that registers [obj]. *)
Definition ResourceNew (obj : Z) : M Z := λ w,
  match ResourceNew_result (trace w) obj with
  | Some h => Ret h (log (EvResourceNew obj h) w)
  | None => Stuck HostFailure
  end.

(** [R::ResourceDrop(h)]: the boundary call that asks the host to drop the
    registration.  What the host does in answer (it calls the generated
    [Dtor], which deletes the object) is not code of this header; the
    model records the call. *)
Definition ResourceDrop (h : Z) : M unit := emit (EvResourceDrop h).
End host.

Section build.
Context {build : Build}.

(** [assert(c)] *)
Definition assert (c : bool) : M unit :=
  if NDEBUG then mret tt
  else if c then mret tt else fail AssertionFailure.
End build.

Module wit.

(** *** [class string] *)
Module string.
Section methods.
Context {libc : Libc}.

(** The object [*this]; using an object that does not exist is undefined. *)
Definition object (this : Z) : M buf.t := λ w,
  match strings w !! this with
  | Some o => Ret o w
  | None => Stuck UndefinedBehaviour
  end.
Definition get_data_ (this : Z) : M Z := o ← object this; mret (buf.data_ o).
Definition get_length (this : Z) : M Z := o ← object this; mret (buf.length o).
Definition set_data_ (this d : Z) : M unit :=
  o ← object this; modify (set_strings <[this := buf.make d (buf.length o)]>).
Definition set_length (this l : Z) : M unit :=
  o ← object this; modify (set_strings <[this := buf.make (buf.data_ o) l]>).
(** The member initialisers of a constructor: the object comes into being. *)
Definition init (this d l : Z) : M unit :=
  modify (set_strings <[this := buf.make d l]>).
(** The end of the object's lifetime, after the destructor's body. *)
Definition end_lifetime (this : Z) : M unit :=
  modify (set_strings (delete this)).

(** [string(string &&b) : data_(b.data_), length(b.length) { b.data_ = nullptr; }] *)
Definition move_ctor (this b : Z) : M unit :=
  d ← get_data_ b;
  l ← get_length b;
  init this d l;;
  set_data_ b 0.

(** [string &operator=(string &&b)] *)
Definition operator_assign (this b : Z) : M unit :=
  d ← get_data_ this;
  (if d =? 0 then mret tt else free d);;
  bd ← get_data_ b;
  set_data_ this bd;;
  bl ← get_length b;
  set_length this bl;;
  set_data_ b 0.

(** [string(char const *d, size_t l) : data_(d), length(l) {}], the cast left out *)
Definition ctor (this d l : Z) : M unit := init this d l.

(** [char const *data() const] *)
Definition data (this : Z) : M Z := get_data_ this.

(** [size_t size() const] *)
Definition size (this : Z) : M Z := get_length this.

(** [~string()] *)
Definition dtor (this : Z) : M unit :=
  d ← get_data_ this;
  (if d =? 0 then mret tt else free d);;
  end_lifetime this.

(** [void leak() { data_ = nullptr; }] *)
Definition leak (this : Z) : M unit := set_data_ this 0.

(** [static void drop_raw(void *ptr) { free(ptr); }] *)
Definition drop_raw (p : Z) : M unit := free p.

(** [std::string_view get_view() const] *)
Definition get_view (this : Z) : M string_view :=
  d ← get_data_ this;
  l ← get_length this;
  mret (StringView d l).

(** [std::string to_string() const { return std::string((const char * )data_, length); }]:
    the [std::string] is given by its characters.  The constructor reads
    [length] characters from [data_], so a null [data_] is undefined unless
    [length] is zero. *)
Definition to_string (this : Z) : M (list Byte.byte) :=
  d ← get_data_ this;
  l ← get_length this;
  if (d =? 0) && negb (l =? 0) then fail UndefinedBehaviour
  else λ w, Ret (read_bytes (mem w) d (Z.to_nat l)) w.

(** [static string from_view(std::string_view v)]; the returned object is
    constructed in the caller's slot [ret]. *)
Definition from_view (ret : Z) (v : string_view) : M unit :=
  addr ← malloc (sv_size v);
  memcpy addr (sv_data v) (sv_size v);;
  ctor ret addr (sv_size v).
End methods.
End string.

(** *** [template <class T> class vector] *)
Module vector.
Section methods.
Context {libc : Libc}.

Definition object (this : Z) : M buf.t := λ w,
  match vectors w !! this with
  | Some o => Ret o w
  | None => Stuck UndefinedBehaviour
  end.
Definition get_data_ (this : Z) : M Z := o ← object this; mret (buf.data_ o).
Definition get_length (this : Z) : M Z := o ← object this; mret (buf.length o).
Definition set_data_ (this d : Z) : M unit :=
  o ← object this; modify (set_vectors <[this := buf.make d (buf.length o)]>).
Definition set_length (this l : Z) : M unit :=
  o ← object this; modify (set_vectors <[this := buf.make (buf.data_ o) l]>).
Definition init (this d l : Z) : M unit :=
  modify (set_vectors <[this := buf.make d l]>).
Definition end_lifetime (this : Z) : M unit :=
  modify (set_vectors (delete this)).

(** [vector(vector &&b) : data_(b.data_), length(b.length) { b.data_ = nullptr; }] *)
Definition move_ctor (this b : Z) : M unit :=
  d ← get_data_ b;
  l ← get_length b;
  init this d l;;
  set_data_ b 0.

(** [vector &operator=(vector &&b)].  The body passes
    [const_cast<uint8_t *>(data_)] to [free], which is well-formed only
    where [T] is [uint8_t]; the model is the function as it runs once
    instantiated. *)
Definition operator_assign (this b : Z) : M unit :=
  d ← get_data_ this;
  (if d =? 0 then mret tt else free d);;
  bd ← get_data_ b;
  set_data_ this bd;;
  bl ← get_length b;
  set_length this bl;;
  set_data_ b 0.

(** [vector(T *d, size_t l) : data_(d), length(l) {}] *)
Definition ctor (this d l : Z) : M unit := init this d l.

(** [T *data()] *)
Definition data (this : Z) : M Z := get_data_ this.

(** [size_t size() const] *)
Definition size (this : Z) : M Z := get_length this.

(** [~vector()] *)
Definition dtor (this : Z) : M unit :=
  d ← get_data_ this;
  (if d =? 0 then mret tt else free d);;
  end_lifetime this.

(** [void leak() { data_ = nullptr; }] *)
Definition leak (this : Z) : M unit := set_data_ this 0.

(** [static void drop_raw(void *ptr) { free(ptr); }] *)
Definition drop_raw (p : Z) : M unit := free p.

(** [wit::span<T> get_view() const] *)
Definition get_view (this : Z) : M span :=
  d ← get_data_ this;
  l ← get_length this;
  mret (Span d l).
End methods.
End vector.

(** *** [template <class R> class ResourceExportBase] *)
Module ResourceExportBase.
Section methods.
Context {build : Build} {R : Resource}.

(** [static const handle_t invalid]: [nullptr] under WIT_SYMMETRIC, [-1]
    otherwise. *)
Definition invalid : Z := if WIT_SYMMETRIC then 0 else -1.

(** [this->handle], read and written. *)
Definition load_handle (this : Z) : M Z := λ w,
  match exports w !! this with
  | Some h => Ret h w
  | None => Stuck UndefinedBehaviour
  end.
Definition store_handle (this h : Z) : M unit :=
  _ ← load_handle this; modify (set_exports <[this := h]>).
Definition init (this h : Z) : M unit := modify (set_exports <[this := h]>).
Definition end_lifetime (this : Z) : M unit := modify (set_exports (delete this)).

(** The test that guards the call in [Deregister]: [ptr->handle != nullptr]
    under WIT_SYMMETRIC, [ptr->handle >= 0] otherwise. *)
Definition is_registered (h : Z) : bool :=
  if WIT_SYMMETRIC then negb (h =? 0) else 0 <=? h.

(** [struct Deregister { void operator()(R *ptr) const }] *)
Definition Deregister (ptr : Z) : M unit :=
  h ← load_handle ptr;
  if is_registered h then ResourceDrop h else mret tt.

(** [typedef std::unique_ptr<R, Deregister> Owned]: the destructor of the
    smart pointer calls the deleter unless it holds the null pointer. *)
Definition Owned_dtor (ptr : Z) : M unit :=
  if ptr =? 0 then mret tt else Deregister ptr.

(** [ResourceExportBase() : handle(R::ResourceNew((R * )this)) {}] *)
Definition ctor (this : Z) : M unit :=
  h ← ResourceNew this;
  init this h.

(** [~ResourceExportBase() {}] *)
Definition dtor (this : Z) : M unit := end_lifetime this.

(** [handle_t get_handle() const { return handle; }] *)
Definition get_handle (this : Z) : M Z := load_handle this.

(** [handle_t into_handle()] *)
Definition into_handle (this : Z) : M Z :=
  result ← load_handle this;
  store_handle this invalid;;
  mret result.
End methods.
End ResourceExportBase.

(** *** [class ResourceImportBase] *)
Module ResourceImportBase.
Section methods.
Context {build : Build}.

Definition invalid : Z := if WIT_SYMMETRIC then 0 else -1.

Definition load_handle (this : Z) : M Z := λ w,
  match imports w !! this with
  | Some h => Ret h w
  | None => Stuck UndefinedBehaviour
  end.
Definition store_handle (this h : Z) : M unit :=
  _ ← load_handle this; modify (set_imports <[this := h]>).
Definition init (this h : Z) : M unit := modify (set_imports <[this := h]>).

(** [ResourceImportBase(handle_t h = invalid) : handle(h) {}] *)
Definition ctor (this : Z) (h : option Z) : M unit :=
  init this (default invalid h).

(** [ResourceImportBase(ResourceImportBase &&r) : handle(r.handle) { r.handle = invalid; }] *)
Definition move_ctor (this r : Z) : M unit :=
  h ← load_handle r;
  init this h;;
  store_handle r invalid.

(** [void set_handle(handle_t h) { handle = h; }] *)
Definition set_handle (this h : Z) : M unit := store_handle this h.

(** [handle_t get_handle() const { return handle; }] *)
Definition get_handle (this : Z) : M Z := load_handle this.

(** [handle_t into_handle()] *)
Definition into_handle (this : Z) : M Z :=
  h ← load_handle this;
  store_handle this invalid;;
  mret h.

(** [ResourceImportBase &operator=(ResourceImportBase &&r)] *)
Definition operator_assign (this r : Z) : M unit :=
  h ← load_handle this;
  assert (h =? invalid);;
  rh ← load_handle r;
  store_handle this rh;;
  store_handle r invalid.
End methods.
End ResourceImportBase.

End wit.

(** ** Sample environments, for closed instances of the theorems *)

(** An allocator that has run out of memory. *)
Definition exhausted_libc : Libc := {| malloc_result := λ _ _, 0 |}.

(** The bytes handed out so far. *)
Definition allocated (tr : list event) : Z :=
  foldr (λ e acc, match e with
                  | EvMalloc n p => if p =? 0 then acc else acc + n
                  | _ => acc
                  end) 0 tr.

(** A bump allocator over the arena [[base, base + capacity)]. *)
Definition arena_libc (base capacity : Z) : Libc :=
  {| malloc_result := λ tr n,
       if allocated tr + n <=? capacity then base + allocated tr else 0 |}.

(** A host that numbers the registrations 1, 2, 3, ... and stops answering
    once [capacity] handles are out. *)
Definition registrations (tr : list event) : Z :=
  foldr (λ e acc, match e with EvResourceNew _ _ => acc + 1 | _ => acc end) 0 tr.
Definition counting_host (capacity : Z) : Resource :=
  {| ResourceNew_result := λ tr _,
       if registrations tr <? capacity then Some (registrations tr + 1) else None |}.

(** A host that answers every registration with -1. *)
Definition refusing_host : Resource := {| ResourceNew_result := λ _ _, Some (-1) |}.

Definition debug_build : Build := {| WIT_SYMMETRIC := false; NDEBUG := false |}.
Definition release_build : Build := {| WIT_SYMMETRIC := false; NDEBUG := true |}.
Definition symmetric_build : Build := {| WIT_SYMMETRIC := true; NDEBUG := false |}.

(** The five characters of "hello", stored at address 64. *)
Definition hello : list Byte.byte := [Byte.x68; Byte.x65; Byte.x6c; Byte.x6c; Byte.x6f].
Definition hello_world : world := set_mem (write_bytes 64 hello) empty_world.
Definition hello_view : string_view := StringView 64 5.

(** An exported resource at address 8 registered under handle 1, and three
    imported resources: at 8 with handle 5, at 9 with handle 6, and an empty
    one at 11. *)
Definition resources_world : world :=
  set_exports <[8 := 1]>
    (set_imports (λ m, <[8 := 5]> (<[9 := 6]> (<[11 := -1]> m))) empty_world).

(** Two live blocks, at 1024 and at 2048; a string and a vector at address 1
    that own the first, a string and a vector at address 2 that own the
    second, and an empty string and vector at address 3. *)
Definition two_buffers : gmap Z buf.t :=
  <[1 := buf.make 1024 5]> (<[2 := buf.make 2048 7]> (<[3 := buf.make 0 0]> ∅)).
Definition buffers_world : world :=
  set_live (λ _, <[1024 := 5]> (<[2048 := 7]> ∅))
    (set_strings (λ _, two_buffers) (set_vectors (λ _, two_buffers) hello_world)).

(** ** Vocabulary of the statements *)

(** Ownership has passed from the object at [b] to the object at [this]:
    [this] now has the data pointer and the length [b] had, and the data
    pointer of [b] is null. *)
Definition transferred (before after : gmap Z buf.t) (this b : Z) : Prop :=
  ∃ d l, before !! b = Some (buf.make d l)
         ∧ after !! this = Some (buf.make d l)
         ∧ after !! b = Some (buf.make 0 l).


(** The discipline of the owning buffers, for one class of them: every
    data pointer that is not null is a live block of the allocator, and no
    two objects hold the same one. *)
Definition heap_owned (objs : gmap Z buf.t) (lv : gmap Z Z) : Prop :=
  (∀ a o, objs !! a = Some o → buf.data_ o ≠ 0 → is_Some (lv !! buf.data_ o))
  ∧ (∀ a b oa ob, objs !! a = Some oa → objs !! b = Some ob →
       buf.data_ oa = buf.data_ ob → buf.data_ oa ≠ 0 → a = b).

(** No handle other than the sentinel is held by two imported resources. *)
Definition unique_handles {build : Build} (m : gmap Z Z) : Prop :=
  ∀ a b h, m !! a = Some h → m !! b = Some h →
           h ≠ wit.ResourceImportBase.invalid → a = b.

(** A computation that, where it returns, has changed nothing but the
    imported resources: no call, no block, no byte, no other object. *)
Definition touches_only_imports {A} (m : M A) : Prop :=
  ∀ w a w', m w = Ret a w' →
    trace w' = trace w ∧ live w' = live w ∧ mem w' = mem w
    ∧ strings w' = strings w ∧ vectors w' = vectors w ∧ exports w' = exports w.

(** Modelled from the spec: the host's registry behind [R::ResourceNew]
    (the spec's [registryCreate(objectRef) -> handle]), which is code of the
    generated bindings and of the host and not of this header.  The spec
    reserves the sentinel for "not registered" and makes a registration the
    registry cannot serve fatal; so a registry either hands back a handle
    other than the sentinel, or does not return. *)
Definition registry_contract {build : Build} (R : Resource) : Prop :=
  ∀ tr obj h, ResourceNew_result tr obj = Some h → h ≠ wit.ResourceExportBase.invalid.

(** * Properties *)

Import wit.

(** ** Stepping through a computation *)

Lemma calls_of_same {A} (w w' : world) (a : A) :
  trace w' = trace w → calls_of w (Ret a w') = Some [].
Proof. intros E. cbn. rewrite E. by rewrite drop_all. Qed.

Lemma calls_of_app {A} (w w' : world) (a : A) (es : list event) :
  trace w' = trace w ++ es → calls_of w (Ret a w') = Some es.
Proof. intros E. cbn. rewrite E. by rewrite drop_app_length. Qed.

(** Runs a computation on a store whose lookups are known. *)
Ltac run :=
  repeat first
    [ progress cbn
    | rewrite lookup_insert_eq
    | rewrite lookup_insert_ne by done
    | rewrite lookup_delete_eq
    | match goal with
      | H : ?m !! ?k = _ |- context [?m !! ?k] => rewrite H
      end ].

(** ** Linear memory *)

Lemma read_bytes_length (m : gmap Z Byte.byte) (p : Z) (n : nat) :
  base.length (read_bytes m p n) = n.
Proof. revert p. induction n as [|n IH]; intros p; cbn; [done | by rewrite IH]. Qed.

Lemma read_bytes_ext (m1 m2 : gmap Z Byte.byte) (p : Z) (n : nat) :
  (∀ i, p ≤ i < p + Z.of_nat n → m1 !! i = m2 !! i) →
  read_bytes m1 p n = read_bytes m2 p n.
Proof.
  revert p. induction n as [|n IH]; intros p Hagree; cbn; [done|].
  f_equal.
  - unfold load_byte. rewrite Hagree; [done | lia].
  - apply IH. intros i Hi. apply Hagree. lia.
Qed.

Lemma write_bytes_outside (p q : Z) (bs : list Byte.byte) (m : gmap Z Byte.byte) :
  q < p ∨ p + Z.of_nat (base.length bs) ≤ q →
  write_bytes p bs m !! q = m !! q.
Proof.
  revert p. induction bs as [|b bs IH]; intros p Hout; cbn; [done|].
  cbn in Hout. rewrite lookup_insert_ne by lia. apply IH. lia.
Qed.

Lemma read_write_same (p : Z) (bs : list Byte.byte) (m : gmap Z Byte.byte) :
  read_bytes (write_bytes p bs m) p (base.length bs) = bs.
Proof.
  revert p. induction bs as [|b bs IH]; intros p; cbn; [done|].
  f_equal.
  - unfold load_byte. by rewrite lookup_insert_eq.
  - etrans; [|apply (IH (p + 1))]. apply read_bytes_ext.
    intros i Hi. by rewrite lookup_insert_ne by lia.
Qed.

Lemma read_write_disjoint (p q : Z) (n : nat) (bs : list Byte.byte) (m : gmap Z Byte.byte) :
  q + Z.of_nat n ≤ p ∨ p + Z.of_nat (base.length bs) ≤ q →
  read_bytes (write_bytes p bs m) q n = read_bytes m q n.
Proof.
  intros Hdisj. apply read_bytes_ext. intros i Hi.
  apply write_bytes_outside. lia.
Qed.

Lemma ranges_overlap_false (p q n : Z) :
  p + n ≤ q ∨ q + n ≤ p → ranges_overlap p q n = false.
Proof. unfold ranges_overlap. intros H. apply andb_false_iff. lia. Qed.

Lemma read_write_copy (m : gmap Z Byte.byte) (p q : Z) (n : nat) :
  read_bytes (write_bytes p (read_bytes m q n) m) p n = read_bytes m q n.
Proof.
  pose proof (read_write_same p (read_bytes m q n) m) as E.
  by rewrite read_bytes_length in E.
Qed.

(** ** [wit::string::from_view] *)

(** What [from_view] does with a null pointer from [malloc]: the function
    does not look at the pointer. *)
Lemma from_view_null_malloc {libc : Libc} (w : world) (ret : Z) (v : string_view) :
  malloc_result (trace w) (sv_size v) = 0 →
  string.from_view ret v w =
    if sv_size v =? 0
    then Ret tt (set_strings <[ret := buf.make 0 (sv_size v)]> (log (EvMalloc (sv_size v) 0) w))
    else Stuck UndefinedBehaviour.
Proof.
  intros E.
  unfold string.from_view, string.ctor, string.init, malloc, memcpy, modify, mbind, M_bind.
  rewrite E. cbn. by destruct (sv_size v =? 0).
Qed.

(** What [from_view] does with a fresh block from [malloc]. *)
Lemma from_view_fresh_block {libc : Libc} (w : world) (ret : Z) (v : string_view) :
  let addr := malloc_result (trace w) (sv_size v) in
  let n := sv_size v in
  addr ≠ 0 →
  n = 0 ∨ sv_data v ≠ 0 →
  addr + n ≤ sv_data v ∨ sv_data v + n ≤ addr →
  string.from_view ret v w =
    Ret tt (set_strings <[ret := buf.make addr n]>
             ((if n =? 0 then λ w, w
               else set_mem (write_bytes addr (read_bytes (mem w) (sv_data v) (Z.to_nat n))))
                (log (EvMalloc n addr) (set_live <[addr := n]> w)))).
Proof.
  intros addr n Haddr Hsrc Hfresh.
  unfold string.from_view, string.ctor, string.init, malloc, memcpy, modify, mbind, M_bind.
  fold addr n. apply Z.eqb_neq in Haddr as Haddr'. rewrite Haddr'. cbn.
  destruct (n =? 0) eqn:Hn; [done|].
  apply Z.eqb_neq in Hn.
  assert ((sv_data v =? 0) = false) as -> by (apply Z.eqb_neq; tauto).
  rewrite ranges_overlap_false by done. done.
Qed.

(** C3, as the header has it: [from_view] never tests what [malloc]
    returned, so no allocation error reaches the caller.  When [malloc]
    returns the null pointer, a view of length zero yields, by a normal
    return, a string whose data pointer is null and whose size is zero, the
    only call being the failed [malloc]; for a longer view [memcpy] is handed
    the null pointer, which is undefined behaviour. *)
Theorem from_view_allocation_unchecked {libc : Libc} (w : world) (ret : Z) (v : string_view) :
  malloc_result (trace w) (sv_size v) = 0 →
  (sv_size v = 0 →
     ∃ w', string.from_view ret v w = Ret tt w'
           ∧ string.data ret w' = Ret 0 w'
           ∧ string.size ret w' = Ret 0 w'
           ∧ calls_of w (string.from_view ret v w) = Some [EvMalloc 0 0])
  ∧ (sv_size v ≠ 0 → string.from_view ret v w = Stuck UndefinedBehaviour).
Proof.
  intros Hnull. rewrite (from_view_null_malloc w ret v Hnull). split.
  - intros ->. eexists. split; [reflexivity|].
    unfold string.data, string.size, string.get_data_, string.get_length, string.object,
      mbind, M_bind, mret, M_ret.
    run. repeat split. by rewrite drop_app_length.
  - intros Hn. apply Z.eqb_neq in Hn. by rewrite Hn.
Qed.

Lemma from_view_allocation_unchecked_witness :
  string.from_view (libc := exhausted_libc) 1 hello_view hello_world = Stuck UndefinedBehaviour.
Proof.
  apply (from_view_allocation_unchecked (libc := exhausted_libc) hello_world 1 hello_view).
  - reflexivity.
  - cbn. lia.
Defined.

(** C3 as stated fails: with an allocator that returns the null pointer,
    [from_view] of an empty view returns normally, and what it returns is a
    string with a null data pointer and size zero; of "hello" it has no
    defined behaviour.  In neither case is an error reported. *)
Lemma from_view_exhausted_returns_empty :
  malloc_result (Libc := exhausted_libc) (trace hello_world) 0 = 0
  ∧ (∃ w', string.from_view (libc := exhausted_libc) 1 (StringView 64 0) hello_world = Ret tt w'
           ∧ strings w' !! 1 = Some (buf.make 0 0))
  ∧ string.from_view (libc := exhausted_libc) 1 hello_view hello_world = Stuck UndefinedBehaviour.
Proof.
  split; [reflexivity|]. split; [|reflexivity].
  eexists. split; [reflexivity|]. cbn. apply lookup_insert_eq.
Qed.

(** C4: where [malloc] returns a block, and the block is apart from the
    characters of the source view [v], [from_view(v)] returns a string [B]
    such that the characters of [B.get_view()] are those of [v] and
    [B.size()] is [v.size()]; the characters of [v] are left as they were. *)
Theorem from_view_round_trip {libc : Libc} (w : world) (ret : Z) (v : string_view) :
  0 ≤ sv_size v →
  sv_size v = 0 ∨ sv_data v ≠ 0 →
  malloc_result (trace w) (sv_size v) ≠ 0 →
  malloc_result (trace w) (sv_size v) + sv_size v ≤ sv_data v
    ∨ sv_data v + sv_size v ≤ malloc_result (trace w) (sv_size v) →
  ∃ w' bv,
    string.from_view ret v w = Ret tt w'
    ∧ string.get_view ret w' = Ret bv w'
    ∧ view_bytes w' bv = view_bytes w v
    ∧ view_bytes w' v = view_bytes w v
    ∧ string.size ret w' = Ret (sv_size v) w'.
Proof.
  intros Hsize Hsrc Haddr Hfresh.
  rewrite (from_view_fresh_block w ret v Haddr Hsrc Hfresh).
  set (addr := malloc_result (trace w) (sv_size v)) in *.
  eexists. exists (StringView addr (sv_size v)). split; [reflexivity|].
  unfold string.get_view, string.size, string.get_data_, string.get_length, string.object,
    mbind, M_bind, mret, M_ret, view_bytes.
  destruct (sv_size v =? 0) eqn:Hn; run; repeat split.
  - apply Z.eqb_eq in Hn. by rewrite Hn.
  - apply read_write_copy.
  - apply read_write_disjoint. rewrite read_bytes_length. lia.
Qed.

Lemma from_view_round_trip_witness :
  ∃ w' bv,
    string.from_view (libc := arena_libc 1024 100) 1 hello_view hello_world = Ret tt w'
    ∧ string.get_view 1 w' = Ret bv w'
    ∧ view_bytes w' bv = hello
    ∧ view_bytes w' hello_view = hello
    ∧ string.size 1 w' = Ret 5 w'.
Proof.
  apply (from_view_round_trip (libc := arena_libc 1024 100) hello_world 1 hello_view).
  - vm_compute. discriminate.
  - right. vm_compute. discriminate.
  - vm_compute. discriminate.
  - right. vm_compute. discriminate.
Defined.

(** ** The owning buffers: [leak], destructor, move *)

Ltac unfold_string :=
  unfold string.move_ctor, string.operator_assign, string.dtor, string.leak, string.data,
    string.size, string.get_view, string.ctor, string.init, string.end_lifetime,
    string.set_data_, string.set_length, string.get_data_, string.get_length, string.object.
Ltac unfold_vector :=
  unfold vector.move_ctor, vector.operator_assign, vector.dtor, vector.leak, vector.data,
    vector.size, vector.get_view, vector.ctor, vector.init, vector.end_lifetime,
    vector.set_data_, vector.set_length, vector.get_data_, vector.get_length, vector.object.
Ltac unfold_monad :=
  unfold free, emit, modify, fail, mbind, M_bind, mret, M_ret.

Lemma string_leak_spec (w : world) (this : Z) (o : buf.t) :
  strings w !! this = Some o →
  string.leak this w = Ret tt (set_strings <[this := buf.make 0 (buf.length o)]> w).
Proof. intros Ho. unfold_string. unfold_monad. by run. Qed.

Lemma vector_leak_spec (w : world) (this : Z) (o : buf.t) :
  vectors w !! this = Some o →
  vector.leak this w = Ret tt (set_vectors <[this := buf.make 0 (buf.length o)]> w).
Proof. intros Ho. unfold_vector. unfold_monad. by run. Qed.

Lemma string_dtor_null (w : world) (this l : Z) :
  strings w !! this = Some (buf.make 0 l) →
  string.dtor this w = Ret tt (set_strings (delete this) w).
Proof. intros Ho. unfold_string. unfold_monad. by run. Qed.

Lemma vector_dtor_null (w : world) (this l : Z) :
  vectors w !! this = Some (buf.make 0 l) →
  vector.dtor this w = Ret tt (set_vectors (delete this) w).
Proof. intros Ho. unfold_vector. unfold_monad. by run. Qed.

(** A destructor that still owns its block does free it. *)
Lemma string_dtor_owning (w : world) (this d l n : Z) :
  strings w !! this = Some (buf.make d l) → d ≠ 0 → live w !! d = Some n →
  string.dtor this w
  = Ret tt (set_strings (delete this) (log (EvFree d) (set_live (delete d) w))).
Proof.
  intros Ho Hd Hlive. apply Z.eqb_neq in Hd.
  unfold_string. unfold_monad. run. rewrite Hd. by run.
Qed.

Lemma vector_dtor_owning (w : world) (this d l n : Z) :
  vectors w !! this = Some (buf.make d l) → d ≠ 0 → live w !! d = Some n →
  vector.dtor this w
  = Ret tt (set_vectors (delete this) (log (EvFree d) (set_live (delete d) w))).
Proof.
  intros Ho Hd Hlive. apply Z.eqb_neq in Hd.
  unfold_vector. unfold_monad. run. rewrite Hd. by run.
Qed.

(** C5: for a string and for a vector, [leak()] sets the data pointer to
    null, and the destructor run after it returns without a call to [free]:
    it makes no call at all and the allocator's live blocks are those from
    before. *)
Theorem leak_then_dtor_frees_nothing (w : world) (this : Z) (o : buf.t) :
  (strings w !! this = Some o →
     ∃ w1 w2, string.leak this w = Ret tt w1
              ∧ string.data this w1 = Ret 0 w1
              ∧ string.dtor this w1 = Ret tt w2
              ∧ calls_of w1 (string.dtor this w1) = Some []
              ∧ live w2 = live w)
  ∧ (vectors w !! this = Some o →
     ∃ w1 w2, vector.leak this w = Ret tt w1
              ∧ vector.data this w1 = Ret 0 w1
              ∧ vector.dtor this w1 = Ret tt w2
              ∧ calls_of w1 (vector.dtor this w1) = Some []
              ∧ live w2 = live w).
Proof.
  split; intros Ho.
  - pose proof (string_leak_spec w this o Ho) as Hleak.
    set (w1 := set_strings <[this := buf.make 0 (buf.length o)]> w) in *.
    assert (strings w1 !! this = Some (buf.make 0 (buf.length o))) as Ho1
      by (subst w1; by run).
    pose proof (string_dtor_null w1 this _ Ho1) as Hdtor.
    exists w1, (set_strings (delete this) w1). rewrite Hdtor.
    repeat split; [done | | by apply calls_of_same].
    unfold_string. unfold_monad. by run.
  - pose proof (vector_leak_spec w this o Ho) as Hleak.
    set (w1 := set_vectors <[this := buf.make 0 (buf.length o)]> w) in *.
    assert (vectors w1 !! this = Some (buf.make 0 (buf.length o))) as Ho1
      by (subst w1; by run).
    pose proof (vector_dtor_null w1 this _ Ho1) as Hdtor.
    exists w1, (set_vectors (delete this) w1). rewrite Hdtor.
    repeat split; [done | | by apply calls_of_same].
    unfold_vector. unfold_monad. by run.
Qed.

Lemma leak_then_dtor_frees_nothing_witness :
  ∃ w1 w2, string.leak 1 buffers_world = Ret tt w1
           ∧ string.data 1 w1 = Ret 0 w1
           ∧ string.dtor 1 w1 = Ret tt w2
           ∧ calls_of w1 (string.dtor 1 w1) = Some []
           ∧ live w2 = live buffers_world.
Proof.
  apply (proj1 (leak_then_dtor_frees_nothing buffers_world 1 (buf.make 1024 5))).
  reflexivity.
Defined.

Ltac close_transfer :=
  eexists; split; [reflexivity|]; split;
  [ do 2 eexists; repeat split; [eassumption | by run | by run] | ].

Lemma string_move_ctor_spec (w : world) (this b : Z) (sb : buf.t) :
  this ≠ b → strings w !! b = Some sb →
  ∃ w', string.move_ctor this b w = Ret tt w'
        ∧ transferred (strings w) (strings w') this b
        ∧ trace w' = trace w ∧ live w' = live w.
Proof.
  intros Hne Hb. destruct sb as [d l].
  unfold_string. unfold_monad. run. by close_transfer.
Qed.

Lemma vector_move_ctor_spec (w : world) (this b : Z) (sb : buf.t) :
  this ≠ b → vectors w !! b = Some sb →
  ∃ w', vector.move_ctor this b w = Ret tt w'
        ∧ transferred (vectors w) (vectors w') this b
        ∧ trace w' = trace w ∧ live w' = live w.
Proof.
  intros Hne Hb. destruct sb as [d l].
  unfold_vector. unfold_monad. run. by close_transfer.
Qed.

Lemma string_assign_empty_spec (w : world) (this b l : Z) (sb : buf.t) :
  this ≠ b → strings w !! b = Some sb → strings w !! this = Some (buf.make 0 l) →
  ∃ w', string.operator_assign this b w = Ret tt w'
        ∧ transferred (strings w) (strings w') this b
        ∧ trace w' = trace w ∧ live w' = live w.
Proof.
  intros Hne Hb Hthis. destruct sb as [bd bl].
  unfold_string. unfold_monad. run. by close_transfer.
Qed.

Lemma vector_assign_empty_spec (w : world) (this b l : Z) (sb : buf.t) :
  this ≠ b → vectors w !! b = Some sb → vectors w !! this = Some (buf.make 0 l) →
  ∃ w', vector.operator_assign this b w = Ret tt w'
        ∧ transferred (vectors w) (vectors w') this b
        ∧ trace w' = trace w ∧ live w' = live w.
Proof.
  intros Hne Hb Hthis. destruct sb as [bd bl].
  unfold_vector. unfold_monad. run. by close_transfer.
Qed.

Lemma string_assign_owning_spec (w : world) (this b d l n : Z) (sb : buf.t) :
  this ≠ b → strings w !! b = Some sb →
  strings w !! this = Some (buf.make d l) → d ≠ 0 → live w !! d = Some n →
  ∃ w', string.operator_assign this b w = Ret tt w'
        ∧ transferred (strings w) (strings w') this b
        ∧ trace w' = trace w ++ [EvFree d] ∧ live w' = delete d (live w).
Proof.
  intros Hne Hb Hthis Hd Hlive. destruct sb as [bd bl]. apply Z.eqb_neq in Hd.
  unfold_string. unfold_monad. run. rewrite Hd. run. by close_transfer.
Qed.

Lemma vector_assign_owning_spec (w : world) (this b d l n : Z) (sb : buf.t) :
  this ≠ b → vectors w !! b = Some sb →
  vectors w !! this = Some (buf.make d l) → d ≠ 0 → live w !! d = Some n →
  ∃ w', vector.operator_assign this b w = Ret tt w'
        ∧ transferred (vectors w) (vectors w') this b
        ∧ trace w' = trace w ++ [EvFree d] ∧ live w' = delete d (live w).
Proof.
  intros Hne Hb Hthis Hd Hlive. destruct sb as [bd bl]. apply Z.eqb_neq in Hd.
  unfold_vector. unfold_monad. run. rewrite Hd. run. by close_transfer.
Qed.

(** Where source and destination are one object, the assignment frees the
    block and leaves the object with a null data pointer: the free comes
    before the source is read. *)
Lemma string_self_move_assign (w : world) (this d l n : Z) :
  strings w !! this = Some (buf.make d l) → d ≠ 0 → live w !! d = Some n →
  ∃ w', string.operator_assign this this w = Ret tt w'
        ∧ strings w' !! this = Some (buf.make 0 l)
        ∧ trace w' = trace w ++ [EvFree d] ∧ live w' = delete d (live w).
Proof.
  intros Hthis Hd Hlive. apply Z.eqb_neq in Hd.
  unfold_string. unfold_monad. run. rewrite Hd. run.
  eexists. split; [reflexivity|]. by run.
Qed.

(** C6: for a string and for a vector, with source [b] and destination
    [this] two objects.  The move constructor gives [this] the data pointer
    and the length of [b] and sets the data pointer of [b] to null, with no
    call to the allocator.  Move assignment does the same when the data
    pointer of [this] is null; when [this] owns a live block [d], the one
    call made is [free(d)], the block is no longer live, and the transfer is
    as before. *)
Theorem move_transfers_ownership (w : world) (this b : Z) (sb : buf.t) :
  this ≠ b →
  (strings w !! b = Some sb →
     (∃ w', string.move_ctor this b w = Ret tt w'
            ∧ transferred (strings w) (strings w') this b
            ∧ trace w' = trace w ∧ live w' = live w)
     ∧ (∀ l, strings w !! this = Some (buf.make 0 l) →
          ∃ w', string.operator_assign this b w = Ret tt w'
                ∧ transferred (strings w) (strings w') this b
                ∧ trace w' = trace w ∧ live w' = live w)
     ∧ (∀ d l n, strings w !! this = Some (buf.make d l) → d ≠ 0 → live w !! d = Some n →
          ∃ w', string.operator_assign this b w = Ret tt w'
                ∧ transferred (strings w) (strings w') this b
                ∧ trace w' = trace w ++ [EvFree d] ∧ live w' = delete d (live w)))
  ∧ (vectors w !! b = Some sb →
     (∃ w', vector.move_ctor this b w = Ret tt w'
            ∧ transferred (vectors w) (vectors w') this b
            ∧ trace w' = trace w ∧ live w' = live w)
     ∧ (∀ l, vectors w !! this = Some (buf.make 0 l) →
          ∃ w', vector.operator_assign this b w = Ret tt w'
                ∧ transferred (vectors w) (vectors w') this b
                ∧ trace w' = trace w ∧ live w' = live w)
     ∧ (∀ d l n, vectors w !! this = Some (buf.make d l) → d ≠ 0 → live w !! d = Some n →
          ∃ w', vector.operator_assign this b w = Ret tt w'
                ∧ transferred (vectors w) (vectors w') this b
                ∧ trace w' = trace w ++ [EvFree d] ∧ live w' = delete d (live w))).
Proof.
  intros Hne. split; intros Hb; repeat split.
  - by eapply string_move_ctor_spec.
  - intros l Hthis. by eapply string_assign_empty_spec.
  - intros d l n Hthis Hd Hlive. by eapply string_assign_owning_spec.
  - by eapply vector_move_ctor_spec.
  - intros l Hthis. by eapply vector_assign_empty_spec.
  - intros d l n Hthis Hd Hlive. by eapply vector_assign_owning_spec.
Qed.

Lemma move_transfers_ownership_witness :
  (∃ w', string.operator_assign 1 2 buffers_world = Ret tt w'
         ∧ transferred (strings buffers_world) (strings w') 1 2
         ∧ trace w' = trace buffers_world ++ [EvFree 1024]
         ∧ live w' = delete 1024 (live buffers_world))
  ∧ (∃ w', vector.move_ctor 4 2 buffers_world = Ret tt w'
           ∧ transferred (vectors buffers_world) (vectors w') 4 2
           ∧ trace w' = trace buffers_world ∧ live w' = live buffers_world).
Proof.
  split.
  - destruct (move_transfers_ownership buffers_world 1 2 (buf.make 2048 7)) as [Hstr _];
      [discriminate|].
    destruct (Hstr eq_refl) as (_ & _ & Hown).
    apply (Hown 1024 5 5); [reflexivity | discriminate | reflexivity].
  - destruct (move_transfers_ownership buffers_world 4 2 (buf.make 2048 7)) as [_ Hvec];
      [discriminate|].
    destruct (Hvec eq_refl) as (Hctor & _).
    exact Hctor.
Defined.

(** ** [ResourceExportBase<R>] *)

Ltac unfold_export :=
  unfold ResourceExportBase.Owned_dtor, ResourceExportBase.Deregister, ResourceExportBase.ctor,
    ResourceExportBase.dtor, ResourceExportBase.get_handle, ResourceExportBase.into_handle,
    ResourceExportBase.store_handle, ResourceExportBase.load_handle, ResourceExportBase.init,
    ResourceExportBase.end_lifetime, ResourceDrop, ResourceNew.

Lemma invalid_not_registered {build : Build} :
  ResourceExportBase.is_registered ResourceExportBase.invalid = false.
Proof.
  unfold ResourceExportBase.is_registered, ResourceExportBase.invalid.
  by destruct WIT_SYMMETRIC.
Qed.

Lemma Deregister_spec {build : Build} (w : world) (ptr h : Z) :
  exports w !! ptr = Some h →
  ResourceExportBase.Deregister ptr w
  = Ret tt (if ResourceExportBase.is_registered h then log (EvResourceDrop h) w else w).
Proof.
  intros Hh. unfold_export. unfold_monad. run.
  by destruct (ResourceExportBase.is_registered h).
Qed.

Lemma into_handle_spec {build : Build} (w : world) (this h : Z) :
  exports w !! this = Some h →
  ResourceExportBase.into_handle this w
  = Ret h (set_exports <[this := ResourceExportBase.invalid]> w).
Proof. intros Hh. unfold_export. unfold_monad. by run. Qed.

(** C1: [Deregister], the deleter that the destructor of a non-null [Owned]
    runs, makes one call at most, and it is [R::ResourceDrop] on the stored
    handle, made exactly when the guard on the handle holds; it never calls
    [free], and the live blocks, the memory and the object are as before.
    The destructor [~ResourceExportBase] makes no call, so none to the
    host. *)
Theorem Deregister_notifies_and_never_frees {build : Build} (w : world) (ptr h : Z) :
  exports w !! ptr = Some h →
  (∃ w', ResourceExportBase.Deregister ptr w = Ret tt w'
         ∧ calls_of w (ResourceExportBase.Deregister ptr w)
           = Some (if ResourceExportBase.is_registered h then [EvResourceDrop h] else [])
         ∧ live w' = live w ∧ mem w' = mem w ∧ exports w' = exports w)
  ∧ (ptr ≠ 0 → ResourceExportBase.Owned_dtor ptr w = ResourceExportBase.Deregister ptr w)
  ∧ (∃ w', ResourceExportBase.dtor ptr w = Ret tt w'
           ∧ calls_of w (ResourceExportBase.dtor ptr w) = Some []).
Proof.
  intros Hh. repeat split.
  - rewrite (Deregister_spec w ptr h Hh).
    destruct (ResourceExportBase.is_registered h); eexists; (split; [reflexivity|]).
    + split; [by apply calls_of_app | done].
    + split; [by apply calls_of_same | done].
  - intros Hptr. apply Z.eqb_neq in Hptr.
    unfold ResourceExportBase.Owned_dtor. by rewrite Hptr.
  - eexists. split; [reflexivity|]. by apply calls_of_same.
Qed.

Lemma Deregister_notifies_and_never_frees_witness :
  (∃ w', ResourceExportBase.Deregister (build := debug_build) 8 resources_world = Ret tt w'
         ∧ calls_of resources_world
             (ResourceExportBase.Deregister (build := debug_build) 8 resources_world)
           = Some [EvResourceDrop 1]
         ∧ live w' = live resources_world ∧ mem w' = mem resources_world
         ∧ exports w' = exports resources_world)
  ∧ (8 ≠ 0 → ResourceExportBase.Owned_dtor (build := debug_build) 8 resources_world
             = ResourceExportBase.Deregister (build := debug_build) 8 resources_world)
  ∧ (∃ w', ResourceExportBase.dtor 8 resources_world = Ret tt w'
           ∧ calls_of resources_world (ResourceExportBase.dtor 8 resources_world) = Some []).
Proof.
  apply (Deregister_notifies_and_never_frees (build := debug_build) resources_world 8 1).
  reflexivity.
Defined.

(** Under WIT_SYMMETRIC the handle is a pointer and the sentinel is null. *)
Example Deregister_symmetric_build :
  calls_of resources_world
    (ResourceExportBase.Deregister (build := symmetric_build) 8 resources_world)
  = Some [EvResourceDrop 1]
  ∧ calls_of resources_world
      ((ResourceExportBase.into_handle (build := symmetric_build) 8;;
        ResourceExportBase.Deregister (build := symmetric_build) 8) resources_world)
    = Some [].
Proof. split; reflexivity. Qed.

(** C2: [into_handle()] returns the stored handle and stores the sentinel,
    with no call.  In the world it leaves, a further [into_handle()] returns
    the sentinel and changes nothing, and both the deleter and the
    destructor of the owning [Owned] return without a call: no
    [ResourceDrop] reaches the host. *)
Theorem into_handle_then_no_drop {build : Build} (w : world) (this h : Z) :
  exports w !! this = Some h →
  ∃ w1, ResourceExportBase.into_handle this w = Ret h w1
        ∧ ResourceExportBase.get_handle this w1 = Ret ResourceExportBase.invalid w1
        ∧ calls_of w (ResourceExportBase.into_handle this w) = Some []
        ∧ ResourceExportBase.into_handle this w1 = Ret ResourceExportBase.invalid w1
        ∧ ResourceExportBase.Deregister this w1 = Ret tt w1
        ∧ ResourceExportBase.Owned_dtor this w1 = Ret tt w1.
Proof.
  intros Hh. rewrite (into_handle_spec w this h Hh).
  set (w1 := set_exports <[this := ResourceExportBase.invalid]> w).
  assert (exports w1 !! this = Some ResourceExportBase.invalid) as Hsent
    by (subst w1; by run).
  exists w1. repeat split.
  - unfold_export. by run.
  - by apply calls_of_same.
  - rewrite (into_handle_spec w1 this _ Hsent). f_equal.
    subst w1. unfold set_exports. cbn. by rewrite insert_insert_eq.
  - rewrite (Deregister_spec w1 this _ Hsent). by rewrite invalid_not_registered.
  - unfold ResourceExportBase.Owned_dtor. destruct (this =? 0); [done|].
    rewrite (Deregister_spec w1 this _ Hsent). by rewrite invalid_not_registered.
Qed.

Lemma into_handle_then_no_drop_witness :
  ∃ w1, ResourceExportBase.into_handle (build := debug_build) 8 resources_world = Ret 1 w1
        ∧ ResourceExportBase.get_handle 8 w1 = Ret (-1) w1
        ∧ calls_of resources_world
            (ResourceExportBase.into_handle (build := debug_build) 8 resources_world) = Some []
        ∧ ResourceExportBase.into_handle (build := debug_build) 8 w1 = Ret (-1) w1
        ∧ ResourceExportBase.Deregister (build := debug_build) 8 w1 = Ret tt w1
        ∧ ResourceExportBase.Owned_dtor (build := debug_build) 8 w1 = Ret tt w1.
Proof.
  apply (into_handle_then_no_drop (build := debug_build) resources_world 8 1).
  reflexivity.
Defined.

(** The constructor keeps whatever the host answered; it has no test of its
    own. *)
Lemma ctor_stores_host_answer {R : Resource} (w : world) (this : Z) :
  ResourceExportBase.ctor this w
  = match ResourceNew_result (trace w) this with
    | Some h => Ret tt (set_exports <[this := h]> (log (EvResourceNew this h) w))
    | None => Stuck HostFailure
    end.
Proof.
  unfold_export. unfold_monad.
  by destruct (ResourceNew_result (trace w) this).
Qed.

(** So against a host that answers with the sentinel, the object is built
    and holds the sentinel. *)
Lemma ctor_keeps_a_sentinel_answer :
  ∃ w', ResourceExportBase.ctor (R := refusing_host) 8 empty_world = Ret tt w'
        ∧ ResourceExportBase.get_handle 8 w'
          = Ret (ResourceExportBase.invalid (build := debug_build)) w'.
Proof. eexists. split; reflexivity. Qed.

Lemma registrations_nonneg (tr : list event) : 0 ≤ registrations tr.
Proof.
  induction tr as [|e tr IH]; cbn; [done|].
  destruct e; fold (registrations tr); lia.
Qed.

Lemma counting_host_contract (capacity : Z) :
  registry_contract (build := debug_build) (counting_host capacity).
Proof.
  intros tr obj h. cbn. pose proof (registrations_nonneg tr).
  destruct (registrations tr <? capacity); [|done].
  intros [= <-]. unfold ResourceExportBase.invalid. cbn. lia.
Qed.

(** C7: with a host registry as the spec describes it, construction either
    returns, and then [get_handle()] on the new object returns the handle
    the host assigned, which is not the sentinel, or it fails as a whole
    because the host did not return; an object holding the sentinel is
    never built. *)
Theorem ctor_handle_not_sentinel {build : Build} {R : Resource} (w : world) (this : Z) :
  registry_contract R →
  match ResourceExportBase.ctor this w with
  | Ret _ w' =>
      ∃ h, ResourceNew_result (trace w) this = Some h
           ∧ ResourceExportBase.get_handle this w' = Ret h w'
           ∧ h ≠ ResourceExportBase.invalid
  | Stuck f => f = HostFailure ∧ ResourceNew_result (trace w) this = None
  end.
Proof.
  intros Hhost. rewrite ctor_stores_host_answer.
  destruct (ResourceNew_result (trace w) this) as [h|] eqn:Hanswer; [|done].
  exists h. repeat split.
  - unfold_export. by run.
  - by eapply Hhost.
Qed.

Lemma ctor_handle_not_sentinel_witness :
  match ResourceExportBase.ctor (R := counting_host 2) 8 empty_world with
  | Ret _ w' =>
      ∃ h, ResourceNew_result (Resource := counting_host 2) (trace empty_world) 8 = Some h
           ∧ ResourceExportBase.get_handle 8 w' = Ret h w'
           ∧ h ≠ ResourceExportBase.invalid (build := debug_build)
  | Stuck f =>
      f = HostFailure
      ∧ ResourceNew_result (Resource := counting_host 2) (trace empty_world) 8 = None
  end.
Proof.
  apply (ctor_handle_not_sentinel (build := debug_build) (R := counting_host 2) empty_world 8).
  apply counting_host_contract.
Defined.

(** ** [ResourceImportBase] *)

Ltac unfold_import :=
  unfold ResourceImportBase.operator_assign, ResourceImportBase.move_ctor,
    ResourceImportBase.ctor, ResourceImportBase.set_handle, ResourceImportBase.get_handle,
    ResourceImportBase.into_handle, ResourceImportBase.store_handle,
    ResourceImportBase.load_handle, ResourceImportBase.init, assert.

(** With [NDEBUG] defined the [assert] is gone, and the assignment
    overwrites the handle the destination held. *)
Lemma operator_assign_without_assert {build : Build} (w : world) (this r hd hs : Z) :
  NDEBUG = true → this ≠ r →
  imports w !! this = Some hd → imports w !! r = Some hs →
  ∃ w', ResourceImportBase.operator_assign this r w = Ret tt w'
        ∧ imports w' !! this = Some hs
        ∧ imports w' !! r = Some ResourceImportBase.invalid
        ∧ trace w' = trace w.
Proof.
  intros Hndebug Hne Hthis Hr. unfold_import. unfold_monad. rewrite Hndebug. run.
  eexists. split; [reflexivity|]. by run.
Qed.

Example operator_assign_release_build :
  ∃ w', ResourceImportBase.operator_assign (build := release_build) 8 9 resources_world
        = Ret tt w'
        ∧ imports w' !! 8 = Some 6 ∧ imports w' !! 9 = Some (-1)
        ∧ trace w' = trace resources_world.
Proof.
  by apply (operator_assign_without_assert (build := release_build) resources_world 8 9 5 6).
Qed.

(** C8, as the header has it.  In a build where [assert] is live, move
    assignment into a destination whose handle is not the sentinel stops at
    the assertion: nothing is overwritten.  In every build, move assignment
    into a destination that holds the sentinel returns; the destination
    then has the handle of the source, the source has the sentinel, and no
    call was made. *)
Theorem operator_assign_asserts_empty {build : Build} (w : world) (this r hd hs : Z) :
  imports w !! this = Some hd →
  imports w !! r = Some hs →
  (NDEBUG = false → hd ≠ ResourceImportBase.invalid →
     ResourceImportBase.operator_assign this r w = Stuck AssertionFailure)
  ∧ (hd = ResourceImportBase.invalid →
     ∃ w', ResourceImportBase.operator_assign this r w = Ret tt w'
           ∧ ResourceImportBase.get_handle this w' = Ret hs w'
           ∧ ResourceImportBase.get_handle r w' = Ret ResourceImportBase.invalid w'
           ∧ trace w' = trace w).
Proof.
  intros Hthis Hr. split.
  - intros Hndebug Hhd. apply Z.eqb_neq in Hhd.
    unfold_import. unfold_monad. rewrite Hndebug. run. by rewrite Hhd.
  - intros Hhd. subst hd. destruct (decide (this = r)) as [->|Hne].
    + assert (hs = ResourceImportBase.invalid) as -> by congruence.
      unfold_import. unfold_monad. run. rewrite Z.eqb_refl.
      destruct NDEBUG; run; (eexists; split; [reflexivity|]); by run.
    + unfold_import. unfold_monad. run. rewrite Z.eqb_refl.
      destruct NDEBUG; run; (eexists; split; [reflexivity|]); by run.
Qed.

Lemma operator_assign_asserts_empty_witness :
  ResourceImportBase.operator_assign (build := debug_build) 8 9 resources_world
  = Stuck AssertionFailure
  ∧ (∃ w', ResourceImportBase.operator_assign (build := debug_build) 11 9 resources_world
           = Ret tt w'
           ∧ ResourceImportBase.get_handle 11 w' = Ret 6 w'
           ∧ ResourceImportBase.get_handle 9 w' = Ret (-1) w'
           ∧ trace w' = trace resources_world)
  ∧ (∃ w', ResourceImportBase.operator_assign (build := release_build) 11 9 resources_world
           = Ret tt w'
           ∧ ResourceImportBase.get_handle 11 w' = Ret 6 w'
           ∧ ResourceImportBase.get_handle 9 w' = Ret (-1) w'
           ∧ trace w' = trace resources_world).
Proof.
  repeat apply conj.
  - apply (operator_assign_asserts_empty (build := debug_build) resources_world 8 9 5 6);
      [reflexivity | reflexivity | reflexivity | discriminate].
  - apply (operator_assign_asserts_empty (build := debug_build) resources_world 11 9 (-1) 6);
      reflexivity.
  - apply (operator_assign_asserts_empty (build := release_build) resources_world 11 9 (-1) 6);
      reflexivity.
Defined.

(** C8 as stated fails: in a build with [NDEBUG] defined, move assignment
    into the resource at 8, whose handle 5 is not the sentinel, does not
    stop at an assertion.  It returns, the resource at 8 then holds the
    source's handle 6, and no call was made: the handle 5 is overwritten
    and released nowhere. *)
Lemma operator_assign_release_build_overwrites :
  ResourceImportBase.get_handle 8 resources_world = Ret 5 resources_world
  ∧ 5 ≠ ResourceImportBase.invalid (build := release_build)
  ∧ ResourceImportBase.operator_assign (build := release_build) 8 9 resources_world
    ≠ Stuck AssertionFailure
  ∧ ∃ w', ResourceImportBase.operator_assign (build := release_build) 8 9 resources_world
          = Ret tt w'
          ∧ ResourceImportBase.get_handle 8 w' = Ret 6 w'
          ∧ ResourceImportBase.get_handle 9 w' = Ret (-1) w'
          ∧ trace w' = trace resources_world.
Proof.
  split; [reflexivity|].
  split; [intros E; vm_compute in E; discriminate|].
  split; [intros E; vm_compute in E; discriminate|].
  eexists. repeat split; reflexivity.
Qed.

(** C9: move construction of [B] from [A], where [A] holds [h]: afterwards
    [A.get_handle()] is the sentinel and [B.get_handle()] is [h]. *)
Theorem move_ctor_takes_handle {build : Build} (w : world) (A B h : Z) :
  B ≠ A →
  imports w !! A = Some h →
  ∃ w', ResourceImportBase.move_ctor B A w = Ret tt w'
        ∧ ResourceImportBase.get_handle A w' = Ret ResourceImportBase.invalid w'
        ∧ ResourceImportBase.get_handle B w' = Ret h w'.
Proof.
  intros Hne HA. unfold_import. unfold_monad. run.
  eexists. split; [reflexivity|]. by run.
Qed.

Lemma move_ctor_takes_handle_witness :
  ∃ w', ResourceImportBase.move_ctor (build := debug_build) 10 9 resources_world = Ret tt w'
        ∧ ResourceImportBase.get_handle 9 w' = Ret (-1) w'
        ∧ ResourceImportBase.get_handle 10 w' = Ret 6 w'.
Proof.
  apply (move_ctor_takes_handle (build := debug_build) resources_world 9 10 6);
    [discriminate | reflexivity].
Defined.

(** C10: [set_handle(h)] returns whatever handle the object held, live or
    not, and whether or not [assert] is live; afterwards the object holds
    [h], nothing else in the world has changed, and no call was made, so the
    handle held before is neither released nor kept anywhere. *)
Theorem set_handle_overwrites {build : Build} (w : world) (this old h : Z) :
  imports w !! this = Some old →
  ResourceImportBase.set_handle this h w = Ret tt (set_imports <[this := h]> w)
  ∧ ResourceImportBase.get_handle this (set_imports <[this := h]> w)
    = Ret h (set_imports <[this := h]> w)
  ∧ calls_of w (ResourceImportBase.set_handle this h w) = Some [].
Proof.
  intros Hold.
  assert (ResourceImportBase.set_handle this h w = Ret tt (set_imports <[this := h]> w)) as E
    by (unfold_import; unfold_monad; by run).
  rewrite E. repeat split.
  - unfold_import. by run.
  - by apply calls_of_same.
Qed.

Lemma set_handle_overwrites_witness :
  ResourceImportBase.set_handle 8 7 resources_world
  = Ret tt (set_imports <[8 := 7]> resources_world)
  ∧ ResourceImportBase.get_handle 8 (set_imports <[8 := 7]> resources_world)
    = Ret 7 (set_imports <[8 := 7]> resources_world)
  ∧ calls_of resources_world (ResourceImportBase.set_handle 8 7 resources_world) = Some [].
Proof.
  apply (set_handle_overwrites (build := debug_build) resources_world 8 5 7).
  reflexivity.
Defined.

(** * Further properties of the header *)

Lemma bind_ret {A B} (m : M A) (k : A → M B) (w w' : world) (a : A) :
  m w = Ret a w' → (m ≫= k) w = k a w'.
Proof. intros E. unfold mbind, M_bind. by rewrite E. Qed.

(** Runs a computation, also through the tests on pointers and the
    allocator's table. *)
Ltac exec :=
  repeat first
    [ progress cbn
    | rewrite lookup_insert_eq
    | rewrite lookup_insert_ne by done
    | rewrite lookup_delete_eq
    | rewrite lookup_delete_ne by done
    | match goal with
      | H : ?m !! ?k = _ |- context [?m !! ?k] => rewrite H
      | H : (?a =? ?b) = _ |- context [?a =? ?b] => rewrite H
      end ].

Ltac unfold_buffers := try unfold_string; try unfold_vector.

(** ** The owning buffers over their lifetime *)

(** X1: the constructor from a pointer and a length adopts the block as it
    is: it makes no call and copies nothing, and [data()], [size()] and
    [get_view()] then give back the two parts. *)
Theorem ctor_adopts_raw_parts (w : world) (this d l : Z) :
  (∃ w', string.ctor this d l w = Ret tt w'
         ∧ trace w' = trace w ∧ live w' = live w ∧ mem w' = mem w
         ∧ string.data this w' = Ret d w'
         ∧ string.size this w' = Ret l w'
         ∧ string.get_view this w' = Ret (StringView d l) w')
  ∧ (∃ w', vector.ctor this d l w = Ret tt w'
           ∧ trace w' = trace w ∧ live w' = live w ∧ mem w' = mem w
           ∧ vector.data this w' = Ret d w'
           ∧ vector.size this w' = Ret l w'
           ∧ vector.get_view this w' = Ret (Span d l) w').
Proof.
  split; eexists; (split; [reflexivity|]); repeat split.
  all: unfold_buffers; unfold_monad; by exec.
Qed.

(** X2: the destructor of a string or vector that holds a live block calls
    [free] on it, once, and makes no other call; the block is then no longer
    live and the object is gone. *)
Theorem dtor_releases_owned_block (w : world) (this d l n : Z) :
  d ≠ 0 →
  live w !! d = Some n →
  (strings w !! this = Some (buf.make d l) →
     ∃ w', string.dtor this w = Ret tt w'
           ∧ calls_of w (string.dtor this w) = Some [EvFree d]
           ∧ live w' = delete d (live w)
           ∧ strings w' !! this = None)
  ∧ (vectors w !! this = Some (buf.make d l) →
     ∃ w', vector.dtor this w = Ret tt w'
           ∧ calls_of w (vector.dtor this w) = Some [EvFree d]
           ∧ live w' = delete d (live w)
           ∧ vectors w' !! this = None).
Proof.
  intros Hd Hlive. split; intros Hthis.
  - rewrite (string_dtor_owning w this d l n Hthis Hd Hlive).
    eexists. split; [reflexivity|]. repeat split.
    + by apply calls_of_app.
    + cbn. apply lookup_delete_eq.
  - rewrite (vector_dtor_owning w this d l n Hthis Hd Hlive).
    eexists. split; [reflexivity|]. repeat split.
    + by apply calls_of_app.
    + cbn. apply lookup_delete_eq.
Qed.

Lemma dtor_releases_owned_block_witness :
  ∃ w', string.dtor 1 buffers_world = Ret tt w'
        ∧ calls_of buffers_world (string.dtor 1 buffers_world) = Some [EvFree 1024]
        ∧ live w' = delete 1024 (live buffers_world)
        ∧ strings w' !! 1 = None.
Proof.
  apply (proj1 (dtor_releases_owned_block buffers_world 1 1024 5 5 ltac:(discriminate) eq_refl)).
  reflexivity.
Defined.

(** X3: the destructor frees without asking where the pointer came from: for
    a string or vector whose data pointer is not null and is not a live
    block of the allocator (never allocated, or freed already), the
    destructor has undefined behaviour. *)
Theorem dtor_of_dead_block_undefined (w : world) (this d l : Z) :
  d ≠ 0 →
  live w !! d = None →
  (strings w !! this = Some (buf.make d l) → string.dtor this w = Stuck UndefinedBehaviour)
  ∧ (vectors w !! this = Some (buf.make d l) → vector.dtor this w = Stuck UndefinedBehaviour).
Proof.
  intros Hd Hdead. apply Z.eqb_neq in Hd.
  split; intros Hthis; unfold_buffers; unfold_monad; by exec.
Qed.

Lemma dtor_of_dead_block_undefined_witness :
  string.dtor 5 (set_strings <[5 := buf.make 64 5]> hello_world) = Stuck UndefinedBehaviour.
Proof.
  apply (proj1 (dtor_of_dead_block_undefined
                  (set_strings <[5 := buf.make 64 5]> hello_world) 5 64 5
                  ltac:(discriminate) eq_refl)).
  reflexivity.
Defined.

(** X4: after move construction of [this] from [b], destroying both objects
    frees the block once: the one call is [free] on the block, the
    moved-from object frees nothing. *)
Theorem move_ctor_then_destroy_both (w : world) (this b d l n : Z) :
  this ≠ b →
  d ≠ 0 →
  live w !! d = Some n →
  (strings w !! b = Some (buf.make d l) →
     ∃ w', (string.move_ctor this b;; string.dtor b;; string.dtor this) w = Ret tt w'
           ∧ trace w' = trace w ++ [EvFree d]
           ∧ live w' = delete d (live w)
           ∧ strings w' !! this = None ∧ strings w' !! b = None)
  ∧ (vectors w !! b = Some (buf.make d l) →
     ∃ w', (vector.move_ctor this b;; vector.dtor b;; vector.dtor this) w = Ret tt w'
           ∧ trace w' = trace w ++ [EvFree d]
           ∧ live w' = delete d (live w)
           ∧ vectors w' !! this = None ∧ vectors w' !! b = None).
Proof.
  intros Hne Hd Hlive. apply Z.eqb_neq in Hd.
  split; intros Hb; unfold_buffers; unfold_monad; exec;
    (eexists; split; [reflexivity|]); by exec.
Qed.

Lemma move_ctor_then_destroy_both_witness :
  ∃ w', (vector.move_ctor 4 1;; vector.dtor 1;; vector.dtor 4) buffers_world = Ret tt w'
        ∧ trace w' = trace buffers_world ++ [EvFree 1024]
        ∧ live w' = delete 1024 (live buffers_world)
        ∧ vectors w' !! 4 = None ∧ vectors w' !! 1 = None.
Proof.
  apply (proj2 (move_ctor_then_destroy_both buffers_world 4 1 1024 5 5
                  ltac:(discriminate) ltac:(discriminate) eq_refl)).
  reflexivity.
Defined.

(** X5: after move assignment between two objects that each hold a live
    block, destroying both objects leaves both blocks freed once each: the
    destination's old block by the assignment, the transferred block by the
    destination's destructor. *)
Theorem move_assign_then_destroy_both (w : world) (this b d1 l1 n1 d2 l2 n2 : Z) :
  this ≠ b →
  d1 ≠ 0 → d2 ≠ 0 → d1 ≠ d2 →
  live w !! d1 = Some n1 →
  live w !! d2 = Some n2 →
  (strings w !! this = Some (buf.make d1 l1) → strings w !! b = Some (buf.make d2 l2) →
     ∃ w', (string.operator_assign this b;; string.dtor b;; string.dtor this) w = Ret tt w'
           ∧ trace w' = trace w ++ [EvFree d1; EvFree d2]
           ∧ live w' = delete d2 (delete d1 (live w)))
  ∧ (vectors w !! this = Some (buf.make d1 l1) → vectors w !! b = Some (buf.make d2 l2) →
     ∃ w', (vector.operator_assign this b;; vector.dtor b;; vector.dtor this) w = Ret tt w'
           ∧ trace w' = trace w ++ [EvFree d1; EvFree d2]
           ∧ live w' = delete d2 (delete d1 (live w))).
Proof.
  intros Hne Hd1 Hd2 Hd12 Hlive1 Hlive2.
  apply Z.eqb_neq in Hd1. apply Z.eqb_neq in Hd2.
  split; intros Hthis Hb; unfold_buffers; unfold_monad; exec;
    (eexists; split; [reflexivity|]); exec; by rewrite <- app_assoc.
Qed.

Lemma move_assign_then_destroy_both_witness :
  ∃ w', (string.operator_assign 1 2;; string.dtor 2;; string.dtor 1) buffers_world = Ret tt w'
        ∧ trace w' = trace buffers_world ++ [EvFree 1024; EvFree 2048]
        ∧ live w' = delete 2048 (delete 1024 (live buffers_world)).
Proof.
  apply (proj1 (move_assign_then_destroy_both buffers_world 1 2 1024 5 5 2048 7 7
                  ltac:(discriminate) ltac:(discriminate) ltac:(discriminate)
                  ltac:(discriminate) eq_refl eq_refl));
    reflexivity.
Defined.

(** X6: move assignment of a string or vector to itself frees the block it
    holds and leaves it with a null data pointer and the length it had: the
    contents are lost, and the block is freed once. *)
Theorem self_move_assign_releases (w : world) (this d l n : Z) :
  d ≠ 0 →
  live w !! d = Some n →
  (strings w !! this = Some (buf.make d l) →
     ∃ w', string.operator_assign this this w = Ret tt w'
           ∧ string.data this w' = Ret 0 w'
           ∧ string.size this w' = Ret l w'
           ∧ trace w' = trace w ++ [EvFree d]
           ∧ live w' = delete d (live w))
  ∧ (vectors w !! this = Some (buf.make d l) →
     ∃ w', vector.operator_assign this this w = Ret tt w'
           ∧ vector.data this w' = Ret 0 w'
           ∧ vector.size this w' = Ret l w'
           ∧ trace w' = trace w ++ [EvFree d]
           ∧ live w' = delete d (live w)).
Proof.
  intros Hd Hlive. apply Z.eqb_neq in Hd.
  split; intros Hthis; unfold_buffers; unfold_monad; exec;
    (eexists; split; [reflexivity|]); by exec.
Qed.

Lemma self_move_assign_releases_witness :
  ∃ w', vector.operator_assign 2 2 buffers_world = Ret tt w'
        ∧ vector.data 2 w' = Ret 0 w'
        ∧ vector.size 2 w' = Ret 7 w'
        ∧ trace w' = trace buffers_world ++ [EvFree 2048]
        ∧ live w' = delete 2048 (live buffers_world).
Proof.
  apply (proj2 (self_move_assign_releases buffers_world 2 2048 7 7
                  ltac:(discriminate) eq_refl)).
  reflexivity.
Defined.

(** X7: a string made by [from_view] gives its block back: where [malloc]
    returned a block that was not live before, [from_view] followed by the
    destructor makes the two calls [malloc] and [free] on that block, and
    the allocator's live blocks are again those from before. *)
Theorem from_view_then_dtor {libc : Libc} (w : world) (ret : Z) (v : string_view) :
  sv_size v = 0 ∨ sv_data v ≠ 0 →
  malloc_result (trace w) (sv_size v) ≠ 0 →
  malloc_result (trace w) (sv_size v) + sv_size v ≤ sv_data v
    ∨ sv_data v + sv_size v ≤ malloc_result (trace w) (sv_size v) →
  live w !! malloc_result (trace w) (sv_size v) = None →
  ∃ w', (string.from_view ret v;; string.dtor ret) w = Ret tt w'
        ∧ trace w' = trace w ++ [EvMalloc (sv_size v) (malloc_result (trace w) (sv_size v));
                                 EvFree (malloc_result (trace w) (sv_size v))]
        ∧ live w' = live w
        ∧ strings w' !! ret = None.
Proof.
  intros Hsrc Haddr Hfresh Hnew.
  rewrite (bind_ret _ _ _ _ _ (from_view_fresh_block w ret v Haddr Hsrc Hfresh)).
  set (addr := malloc_result (trace w) (sv_size v)) in *.
  erewrite (string_dtor_owning _ ret addr (sv_size v) (sv_size v)); [| |done|].
  - eexists. split; [reflexivity|].
    destruct (sv_size v =? 0); cbn; rewrite <- app_assoc;
      (repeat split; [by apply delete_insert_id | apply lookup_delete_eq]).
  - destruct (sv_size v =? 0); cbn; apply lookup_insert_eq.
  - destruct (sv_size v =? 0); cbn; apply lookup_insert_eq.
Qed.

Lemma from_view_then_dtor_witness :
  ∃ w', (string.from_view (libc := arena_libc 1024 100) 1 hello_view;; string.dtor 1)
          hello_world = Ret tt w'
        ∧ trace w' = trace hello_world ++ [EvMalloc 5 1024; EvFree 1024]
        ∧ live w' = live hello_world
        ∧ strings w' !! 1 = None.
Proof.
  apply (from_view_then_dtor (libc := arena_libc 1024 100) hello_world 1 hello_view).
  - right. vm_compute. discriminate.
  - vm_compute. discriminate.
  - right. vm_compute. discriminate.
  - reflexivity.
Defined.

(** X8: [from_view] makes a copy of its own: whatever is written afterwards
    inside the source view's characters, the characters of the new string's
    view stay those the source had at the time of the copy. *)
Theorem from_view_is_deep_copy {libc : Libc} (w : world) (ret : Z) (v : string_view)
    (q : Z) (bs : list Byte.byte) :
  0 ≤ sv_size v →
  sv_size v = 0 ∨ sv_data v ≠ 0 →
  malloc_result (trace w) (sv_size v) ≠ 0 →
  malloc_result (trace w) (sv_size v) + sv_size v ≤ sv_data v
    ∨ sv_data v + sv_size v ≤ malloc_result (trace w) (sv_size v) →
  sv_data v ≤ q →
  q + Z.of_nat (base.length bs) ≤ sv_data v + sv_size v →
  ∃ w' bv,
    string.from_view ret v w = Ret tt w'
    ∧ string.get_view ret w' = Ret bv w'
    ∧ view_bytes (set_mem (write_bytes q bs) w') bv = view_bytes w v.
Proof.
  intros Hsize Hsrc Haddr Hfresh Hq Hlen.
  rewrite (from_view_fresh_block w ret v Haddr Hsrc Hfresh).
  set (addr := malloc_result (trace w) (sv_size v)) in *.
  eexists. exists (StringView addr (sv_size v)). split; [reflexivity|].
  unfold string.get_view, string.get_data_, string.get_length, string.object, view_bytes.
  unfold_monad.
  destruct (sv_size v =? 0) eqn:Hn; exec; (split; [done|]).
  - apply Z.eqb_eq in Hn. by rewrite Hn.
  - rewrite read_write_disjoint by lia. apply read_write_copy.
Qed.

Lemma from_view_is_deep_copy_witness :
  ∃ w' bv,
    string.from_view (libc := arena_libc 1024 100) 1 hello_view hello_world = Ret tt w'
    ∧ string.get_view 1 w' = Ret bv w'
    ∧ view_bytes (set_mem (write_bytes 65 [Byte.x41; Byte.x42]) w') bv = hello.
Proof.
  apply (from_view_is_deep_copy (libc := arena_libc 1024 100) hello_world 1 hello_view
           65 [Byte.x41; Byte.x42]).
  - vm_compute. discriminate.
  - right. vm_compute. discriminate.
  - vm_compute. discriminate.
  - right. vm_compute. discriminate.
  - vm_compute. discriminate.
  - vm_compute. discriminate.
Defined.

(** X9: [leak()] is what hands the block over to [drop_raw].  Taking
    [data()], calling [leak()], destroying the object and then calling
    [drop_raw] on the pointer frees the block once.  Without [leak()] the
    destructor has freed the block already and [drop_raw] on the pointer has
    undefined behaviour. *)
Theorem leak_hands_block_to_drop_raw (w : world) (this d l n : Z) :
  d ≠ 0 →
  live w !! d = Some n →
  (strings w !! this = Some (buf.make d l) →
     (∃ w', (p ← string.data this; string.leak this;; string.dtor this;; string.drop_raw p) w
            = Ret tt w'
            ∧ trace w' = trace w ++ [EvFree d] ∧ live w' = delete d (live w))
     ∧ (p ← string.data this; string.dtor this;; string.drop_raw p) w
       = Stuck UndefinedBehaviour)
  ∧ (vectors w !! this = Some (buf.make d l) →
     (∃ w', (p ← vector.data this; vector.leak this;; vector.dtor this;; vector.drop_raw p) w
            = Ret tt w'
            ∧ trace w' = trace w ++ [EvFree d] ∧ live w' = delete d (live w))
     ∧ (p ← vector.data this; vector.dtor this;; vector.drop_raw p) w
       = Stuck UndefinedBehaviour).
Proof.
  intros Hd Hlive. apply Z.eqb_neq in Hd.
  split; intros Hthis; (split; [|unfold string.drop_raw, vector.drop_raw; unfold_buffers;
                                 unfold_monad; by exec]).
  all: unfold string.drop_raw, vector.drop_raw; unfold_buffers; unfold_monad; exec;
    eexists; by (split; [reflexivity|]).
Qed.

Lemma leak_hands_block_to_drop_raw_witness :
  (∃ w', (p ← string.data 1; string.leak 1;; string.dtor 1;; string.drop_raw p) buffers_world
         = Ret tt w'
         ∧ trace w' = trace buffers_world ++ [EvFree 1024]
         ∧ live w' = delete 1024 (live buffers_world))
  ∧ (p ← string.data 1; string.dtor 1;; string.drop_raw p) buffers_world
    = Stuck UndefinedBehaviour.
Proof.
  apply (proj1 (leak_hands_block_to_drop_raw buffers_world 1 1024 5 5
                  ltac:(discriminate) eq_refl)).
  reflexivity.
Defined.

(** X10: [to_string()] of a string made by [from_view(v)] is the sequence of
    characters [v] had. *)
Theorem to_string_round_trip {libc : Libc} (w : world) (ret : Z) (v : string_view) :
  0 ≤ sv_size v →
  sv_size v = 0 ∨ sv_data v ≠ 0 →
  malloc_result (trace w) (sv_size v) ≠ 0 →
  malloc_result (trace w) (sv_size v) + sv_size v ≤ sv_data v
    ∨ sv_data v + sv_size v ≤ malloc_result (trace w) (sv_size v) →
  ∃ w', string.from_view ret v w = Ret tt w'
        ∧ string.to_string ret w' = Ret (view_bytes w v) w'.
Proof.
  intros Hsize Hsrc Haddr Hfresh.
  rewrite (from_view_fresh_block w ret v Haddr Hsrc Hfresh).
  set (addr := malloc_result (trace w) (sv_size v)) in *.
  apply Z.eqb_neq in Haddr.
  eexists. split; [reflexivity|].
  unfold string.to_string, string.get_data_, string.get_length, string.object, view_bytes.
  unfold_monad.
  destruct (sv_size v =? 0) eqn:Hn; exec; f_equal.
  - apply Z.eqb_eq in Hn. by rewrite Hn.
  - apply read_write_copy.
Qed.

Lemma to_string_round_trip_witness :
  ∃ w', string.from_view (libc := arena_libc 1024 100) 1 hello_view hello_world = Ret tt w'
        ∧ string.to_string 1 w' = Ret hello w'.
Proof.
  apply (to_string_round_trip (libc := arena_libc 1024 100) hello_world 1 hello_view).
  - vm_compute. discriminate.
  - right. vm_compute. discriminate.
  - vm_compute. discriminate.
  - right. vm_compute. discriminate.
Defined.

(** X11: [leak()] and a move reset the data pointer only.  A string or
    vector of length [l] that was leaked or moved from still answers [l] to
    [size()], and its [get_view()] is the null pointer with length [l]; for
    a string with [l] not zero, [to_string()] then has undefined
    behaviour. *)
Theorem emptied_buffer_keeps_length (w : world) (this b d l : Z) :
  this ≠ b →
  l ≠ 0 →
  (strings w !! b = Some (buf.make d l) →
     (∃ w', string.leak b w = Ret tt w'
            ∧ string.size b w' = Ret l w'
            ∧ string.get_view b w' = Ret (StringView 0 l) w'
            ∧ string.to_string b w' = Stuck UndefinedBehaviour)
     ∧ (∃ w', string.move_ctor this b w = Ret tt w'
              ∧ string.size b w' = Ret l w'
              ∧ string.get_view b w' = Ret (StringView 0 l) w'
              ∧ string.to_string b w' = Stuck UndefinedBehaviour))
  ∧ (vectors w !! b = Some (buf.make d l) →
     (∃ w', vector.leak b w = Ret tt w'
            ∧ vector.size b w' = Ret l w'
            ∧ vector.get_view b w' = Ret (Span 0 l) w')
     ∧ (∃ w', vector.move_ctor this b w = Ret tt w'
              ∧ vector.size b w' = Ret l w'
              ∧ vector.get_view b w' = Ret (Span 0 l) w')).
Proof.
  intros Hne Hl. apply Z.eqb_neq in Hl.
  split; intros Hb; split; unfold string.to_string; unfold_buffers; unfold_monad; exec;
    (eexists; split; [reflexivity|]); repeat split; by exec.
Qed.

Lemma emptied_buffer_keeps_length_witness :
  ∃ w', string.move_ctor 4 1 buffers_world = Ret tt w'
        ∧ string.size 1 w' = Ret 5 w'
        ∧ string.get_view 1 w' = Ret (StringView 0 5) w'
        ∧ string.to_string 1 w' = Stuck UndefinedBehaviour.
Proof.
  destruct (emptied_buffer_keeps_length buffers_world 4 1 1024 5
              ltac:(discriminate) ltac:(discriminate)) as [Hstr _].
  destruct (Hstr eq_refl) as [_ Hmove]. exact Hmove.
Defined.

(** ** The ownership discipline as an invariant *)

Lemma heap_owned_null (m : gmap Z buf.t) (lv : gmap Z Z) (a l : Z) :
  heap_owned m lv → heap_owned (<[a := buf.make 0 l]> m) lv.
Proof.
  intros [Hlive Hexcl]. split.
  - intros a' o' Ha' Hd'. apply lookup_insert_Some in Ha' as [[<- <-]|[Hne Ha']]; [done|].
    by eapply Hlive.
  - intros a1 a2 o1 o2 H1 H2 Heq Hnz.
    apply lookup_insert_Some in H1 as [[<- <-]|[Hne1 H1]]; [done|].
    apply lookup_insert_Some in H2 as [[<- <-]|[Hne2 H2]]; [cbn in Heq; congruence|].
    by eapply Hexcl.
Qed.

Lemma heap_owned_end_lifetime (m : gmap Z buf.t) (lv : gmap Z Z) (a : Z) :
  heap_owned m lv → heap_owned (delete a m) lv.
Proof.
  intros [Hlive Hexcl]. split.
  - intros a' o' Ha' Hd'. apply lookup_delete_Some in Ha' as [Hne Ha']. by eapply Hlive.
  - intros a1 a2 o1 o2 H1 H2 Heq Hnz.
    apply lookup_delete_Some in H1 as [Hne1 H1].
    apply lookup_delete_Some in H2 as [Hne2 H2].
    by eapply Hexcl.
Qed.

Lemma heap_owned_free (m : gmap Z buf.t) (lv : gmap Z Z) (a d l l' : Z) :
  heap_owned m lv → m !! a = Some (buf.make d l) →
  heap_owned (<[a := buf.make 0 l']> m) (delete d lv).
Proof.
  intros [Hlive Hexcl] Ha. split.
  - intros a' o' Ha' Hd'. apply lookup_insert_Some in Ha' as [[<- <-]|[Hne Ha']]; [done|].
    apply lookup_delete_is_Some. split; [|by eapply Hlive].
    intros Heq. apply Hne. eapply (Hexcl a a'); [done..| |]; cbn; congruence.
  - intros a1 a2 o1 o2 H1 H2 Heq Hnz.
    apply lookup_insert_Some in H1 as [[<- <-]|[Hne1 H1]]; [done|].
    apply lookup_insert_Some in H2 as [[<- <-]|[Hne2 H2]]; [cbn in Heq; congruence|].
    by eapply Hexcl.
Qed.

Lemma heap_owned_transfer (m : gmap Z buf.t) (lv : gmap Z Z) (this b d l l1 l2 : Z) :
  heap_owned m lv → m !! b = Some (buf.make d l) →
  heap_owned (<[b := buf.make 0 l1]> (<[this := buf.make d l2]> m)) lv.
Proof.
  intros [Hlive Hexcl] Hb. split.
  - intros a' o' Ha' Hd'. apply lookup_insert_Some in Ha' as [[<- <-]|[Hne Ha']]; [done|].
    apply lookup_insert_Some in Ha' as [[<- <-]|[Hne' Ha']]; [exact (Hlive b _ Hb Hd')|].
    by eapply Hlive.
  - intros a1 a2 o1 o2 H1 H2 Heq Hnz.
    apply lookup_insert_Some in H1 as [[<- <-]|[Hne1 H1]]; [done|].
    apply lookup_insert_Some in H2 as [[<- <-]|[Hne2 H2]]; [cbn in Heq; congruence|].
    apply lookup_insert_Some in H1 as [[<- <-]|[Hne1' H1]];
      apply lookup_insert_Some in H2 as [[<- <-]|[Hne2' H2]]; [done| | |by eapply Hexcl].
    + exfalso. apply Hne2. symmetry. apply (Hexcl a2 b _ _ H2 Hb); cbn in *; congruence.
    + exfalso. apply Hne1. symmetry. apply (Hexcl a1 b _ _ H1 Hb); cbn in *; congruence.
Qed.

Lemma heap_owned_adopt (m : gmap Z buf.t) (lv : gmap Z Z) (a d l n : Z) :
  heap_owned m lv → lv !! d = None →
  heap_owned (<[a := buf.make d l]> m) (<[d := n]> lv).
Proof.
  intros [Hlive Hexcl] Hnew.
  assert (∀ a' o', m !! a' = Some o' → buf.data_ o' ≠ 0 → buf.data_ o' ≠ d) as Hother.
  { intros a' o' Ha' Hnz Heq. destruct (Hlive a' o' Ha' Hnz) as [x Hx]. congruence. }
  split.
  - intros a' o' Ha' Hd'. apply lookup_insert_is_Some.
    apply lookup_insert_Some in Ha' as [[<- <-]|[Hne Ha']]; [by left|].
    right. split; [by eapply not_eq_sym, Hother | by eapply Hlive].
  - intros a1 a2 o1 o2 H1 H2 Heq Hnz.
    apply lookup_insert_Some in H1 as [[<- <-]|[Hne1 H1]];
      apply lookup_insert_Some in H2 as [[<- <-]|[Hne2 H2]]; [done| | |by eapply Hexcl].
    + exfalso. cbn in *. eapply (Hother a2 o2); [done| |]; congruence.
    + exfalso. cbn in *. by eapply (Hother a1 o1).
Qed.

(** X12: the strings keep their discipline.  Where every string's non-null
    data pointer is a live block held by no other string, the move
    constructor, move assignment (also of an object to itself), [leak()] and
    the destructor all return, so that none of them frees a block twice, and
    the discipline holds again afterwards. *)
Theorem string_ops_keep_heap_owned (w : world) (this b : Z) (ob : buf.t) :
  heap_owned (strings w) (live w) →
  strings w !! b = Some ob →
  (∃ w', string.move_ctor this b w = Ret tt w' ∧ heap_owned (strings w') (live w'))
  ∧ (∀ ot, strings w !! this = Some ot →
       ∃ w', string.operator_assign this b w = Ret tt w'
             ∧ heap_owned (strings w') (live w'))
  ∧ (∃ w', string.leak b w = Ret tt w' ∧ heap_owned (strings w') (live w'))
  ∧ (∃ w', string.dtor b w = Ret tt w' ∧ heap_owned (strings w') (live w')).
Proof.
  intros Hinv Hb. destruct ob as [d l]. repeat split.
  - destruct (decide (this = b)) as [->|Hne]; unfold_string; unfold_monad; exec;
      (eexists; split; [reflexivity|]); cbn; by eapply heap_owned_transfer.
  - intros [d1 l1] Hthis.
    destruct (d1 =? 0) eqn:Hd1.
    + apply Z.eqb_eq in Hd1 as ->.
      destruct (decide (this = b)) as [->|Hne]; unfold_string; unfold_monad; exec;
        (eexists; split; [reflexivity|]); cbn.
      * by do 3 apply heap_owned_null.
      * rewrite insert_insert_eq. by eapply heap_owned_transfer.
    + apply Z.eqb_neq in Hd1 as Hd1'.
      destruct (proj1 Hinv this _ Hthis Hd1') as [n1 Hn1]. cbn in Hn1.
      destruct (decide (this = b)) as [->|Hne]; unfold_string; unfold_monad; exec;
        (eexists; split; [reflexivity|]); cbn.
      * rewrite !insert_insert_eq. by eapply heap_owned_free.
      * rewrite insert_insert_eq.
        rewrite <- (insert_insert_eq (strings w) this (buf.make d l) (buf.make 0 l1)).
        eapply heap_owned_transfer; [by eapply heap_owned_free|].
        by rewrite lookup_insert_ne.
  - unfold_string. unfold_monad. exec. eexists. split; [reflexivity|].
    cbn. by apply heap_owned_null.
  - destruct (d =? 0) eqn:Hd.
    + unfold_string. unfold_monad. exec. eexists. split; [reflexivity|].
      cbn. by apply heap_owned_end_lifetime.
    + apply Z.eqb_neq in Hd as Hd'.
      destruct (proj1 Hinv b _ Hb Hd') as [n Hn]. cbn in Hn.
      unfold_string. unfold_monad. exec. eexists. split; [reflexivity|].
      cbn. rewrite <- (delete_insert_eq (strings w) b (buf.make 0 l)).
      apply heap_owned_end_lifetime. by eapply heap_owned_free.
Qed.

Lemma two_buffers_owned : heap_owned two_buffers (<[1024 := 5]> (<[2048 := 7]> ∅)).
Proof.
  unfold two_buffers.
  apply heap_owned_adopt; [|reflexivity].
  apply (heap_owned_adopt _ ∅); [|reflexivity].
  apply heap_owned_null.
  split; intros *; by rewrite lookup_empty.
Qed.

Lemma string_ops_keep_heap_owned_witness :
  ∃ w', string.operator_assign 1 2 buffers_world = Ret tt w'
        ∧ heap_owned (strings w') (live w').
Proof.
  destruct (string_ops_keep_heap_owned buffers_world 1 2 (buf.make 2048 7)
              two_buffers_owned eq_refl) as (_ & Hassign & _).
  exact (Hassign (buf.make 1024 5) eq_refl).
Defined.

(** X13: the vectors keep their discipline, in the same way: where every
    vector's non-null data pointer is a live block held by no other vector,
    the move constructor, move assignment, [leak()] and the destructor all
    return, and the discipline holds again afterwards. *)
Theorem vector_ops_keep_heap_owned (w : world) (this b : Z) (ob : buf.t) :
  heap_owned (vectors w) (live w) →
  vectors w !! b = Some ob →
  (∃ w', vector.move_ctor this b w = Ret tt w' ∧ heap_owned (vectors w') (live w'))
  ∧ (∀ ot, vectors w !! this = Some ot →
       ∃ w', vector.operator_assign this b w = Ret tt w'
             ∧ heap_owned (vectors w') (live w'))
  ∧ (∃ w', vector.leak b w = Ret tt w' ∧ heap_owned (vectors w') (live w'))
  ∧ (∃ w', vector.dtor b w = Ret tt w' ∧ heap_owned (vectors w') (live w')).
Proof.
  intros Hinv Hb. destruct ob as [d l]. repeat split.
  - destruct (decide (this = b)) as [->|Hne]; unfold_vector; unfold_monad; exec;
      (eexists; split; [reflexivity|]); cbn; by eapply heap_owned_transfer.
  - intros [d1 l1] Hthis.
    destruct (d1 =? 0) eqn:Hd1.
    + apply Z.eqb_eq in Hd1 as ->.
      destruct (decide (this = b)) as [->|Hne]; unfold_vector; unfold_monad; exec;
        (eexists; split; [reflexivity|]); cbn.
      * by do 3 apply heap_owned_null.
      * rewrite insert_insert_eq. by eapply heap_owned_transfer.
    + apply Z.eqb_neq in Hd1 as Hd1'.
      destruct (proj1 Hinv this _ Hthis Hd1') as [n1 Hn1]. cbn in Hn1.
      destruct (decide (this = b)) as [->|Hne]; unfold_vector; unfold_monad; exec;
        (eexists; split; [reflexivity|]); cbn.
      * rewrite !insert_insert_eq. by eapply heap_owned_free.
      * rewrite insert_insert_eq.
        rewrite <- (insert_insert_eq (vectors w) this (buf.make d l) (buf.make 0 l1)).
        eapply heap_owned_transfer; [by eapply heap_owned_free|].
        by rewrite lookup_insert_ne.
  - unfold_vector. unfold_monad. exec. eexists. split; [reflexivity|].
    cbn. by apply heap_owned_null.
  - destruct (d =? 0) eqn:Hd.
    + unfold_vector. unfold_monad. exec. eexists. split; [reflexivity|].
      cbn. by apply heap_owned_end_lifetime.
    + apply Z.eqb_neq in Hd as Hd'.
      destruct (proj1 Hinv b _ Hb Hd') as [n Hn]. cbn in Hn.
      unfold_vector. unfold_monad. exec. eexists. split; [reflexivity|].
      cbn. rewrite <- (delete_insert_eq (vectors w) b (buf.make 0 l)).
      apply heap_owned_end_lifetime. by eapply heap_owned_free.
Qed.

Lemma vector_ops_keep_heap_owned_witness :
  ∃ w', vector.dtor 2 buffers_world = Ret tt w' ∧ heap_owned (vectors w') (live w').
Proof.
  destruct (vector_ops_keep_heap_owned buffers_world 2 2 (buf.make 2048 7)
              two_buffers_owned eq_refl) as (_ & _ & _ & Hdtor).
  exact Hdtor.
Defined.

(** X14: [from_view] keeps the strings' discipline: with an allocator that
    returns either the null pointer or a block that is not live yet,
    whenever [from_view] returns, every string's non-null data pointer is
    still a live block held by no other string, the new string included. *)
Theorem from_view_keeps_heap_owned {libc : Libc} (w w' : world) (ret : Z) (v : string_view) :
  heap_owned (strings w) (live w) →
  (malloc_result (trace w) (sv_size v) ≠ 0 →
   live w !! malloc_result (trace w) (sv_size v) = None) →
  string.from_view ret v w = Ret tt w' →
  heap_owned (strings w') (live w').
Proof.
  intros Hinv Hnew.
  unfold string.from_view, string.ctor, string.init, malloc, memcpy. unfold_monad.
  set (addr := malloc_result (trace w) (sv_size v)) in *.
  destruct (addr =? 0) eqn:Haddr; cbn; rewrite ?Haddr;
    destruct (sv_size v =? 0); cbn;
    repeat match goal with
           | |- context [if ?c then _ else _] => destruct c; cbn
           end;
    intros [= <-]; cbn.
  all: try (apply Z.eqb_eq in Haddr as ->; by apply heap_owned_null).
  all: apply Z.eqb_neq in Haddr; apply heap_owned_adopt; auto.
Qed.

Lemma from_view_keeps_heap_owned_witness :
  ∃ w', string.from_view (libc := arena_libc 3000 100) 4 hello_view buffers_world = Ret tt w'
        ∧ heap_owned (strings w') (live w').
Proof.
  eexists. split; [reflexivity|].
  apply (from_view_keeps_heap_owned (libc := arena_libc 3000 100) buffers_world _ 4 hello_view).
  - exact two_buffers_owned.
  - intros _. reflexivity.
  - reflexivity.
Defined.

(** ** Exported resources over their lifetime *)



(** X16: an exported resource whose handle was taken out with
    [into_handle()] is never dropped by its owner: construction,
    [into_handle()] and the release by [Owned] make the registration call
    only, [into_handle()] having returned the handle the registration
    returned. *)
Theorem export_into_handle_skips_drop {build : Build} {R : Resource}
    (w : world) (this h : Z) :
  ResourceNew_result (trace w) this = Some h →
  ∃ w', (ResourceExportBase.ctor this;;
         r ← ResourceExportBase.into_handle this;
         ResourceExportBase.Owned_dtor this;;
         mret r) w = Ret h w'
        ∧ trace w' = trace w ++ [EvResourceNew this h]
        ∧ ResourceExportBase.get_handle this w' = Ret ResourceExportBase.invalid w'.
Proof.
  intros Hanswer.
  unfold_export. unfold_monad. rewrite Hanswer. exec.
  destruct (this =? 0); exec; rewrite ?invalid_not_registered; exec;
    (eexists; split; [reflexivity|]); by exec.
Qed.

Lemma export_into_handle_skips_drop_witness :
  ∃ w', (ResourceExportBase.ctor (R := counting_host 2) 8;;
         r ← ResourceExportBase.into_handle (build := debug_build) 8;
         ResourceExportBase.Owned_dtor (build := debug_build) 8;;
         mret r) empty_world = Ret 1 w'
        ∧ trace w' = trace empty_world ++ [EvResourceNew 8 1]
        ∧ ResourceExportBase.get_handle 8 w' = Ret (-1) w'.
Proof.
  apply (export_into_handle_skips_drop (build := debug_build) (R := counting_host 2)
           empty_world 8 1).
  reflexivity.
Defined.

(** X17: without WIT_SYMMETRIC the guard of [Deregister] is [handle >= 0],
    which is more than "not the sentinel": a resource whose handle is
    negative and is not [-1] holds a handle other than [invalid], and still
    [Deregister] makes no call for it. *)
Theorem Deregister_skips_negative_handles {build : Build} (w : world) (ptr h : Z) :
  WIT_SYMMETRIC = false →
  h < -1 →
  exports w !! ptr = Some h →
  h ≠ ResourceExportBase.invalid
  ∧ ResourceExportBase.Deregister ptr w = Ret tt w.
Proof.
  intros Hsym Hh Hptr.
  unfold_export. unfold_monad.
  unfold ResourceExportBase.invalid, ResourceExportBase.is_registered.
  rewrite Hsym. exec.
  assert ((0 <=? h) = false) as -> by lia.
  split; [lia | done].
Qed.

Lemma Deregister_skips_negative_handles_witness :
  -2 ≠ ResourceExportBase.invalid (build := debug_build)
  ∧ ResourceExportBase.Deregister (build := debug_build) 8
      (set_exports <[8 := -2]> empty_world)
    = Ret tt (set_exports <[8 := -2]> empty_world).
Proof.
  apply (Deregister_skips_negative_handles (build := debug_build)
           (set_exports <[8 := -2]> empty_world) 8 (-2));
    [reflexivity | vm_compute; reflexivity | reflexivity].
Defined.

(** ** Imported resources *)

(** X18: [into_handle()] of an imported resource returns the handle it held
    and leaves the sentinel, without a call; a second [into_handle()]
    returns the sentinel and changes nothing. *)
Theorem import_into_handle_once {build : Build} (w : world) (this h : Z) :
  imports w !! this = Some h →
  ∃ w', ResourceImportBase.into_handle this w = Ret h w'
        ∧ ResourceImportBase.get_handle this w' = Ret ResourceImportBase.invalid w'
        ∧ trace w' = trace w
        ∧ ResourceImportBase.into_handle this w' = Ret ResourceImportBase.invalid w'.
Proof.
  intros Hthis. unfold_import. unfold_monad. exec.
  eexists. split; [reflexivity|]. exec. repeat split.
  unfold set_imports. cbn. by rewrite insert_insert_eq.
Qed.

Lemma import_into_handle_once_witness :
  ∃ w', ResourceImportBase.into_handle (build := debug_build) 9 resources_world = Ret 6 w'
        ∧ ResourceImportBase.get_handle 9 w' = Ret (-1) w'
        ∧ trace w' = trace resources_world
        ∧ ResourceImportBase.into_handle (build := debug_build) 9 w' = Ret (-1) w'.
Proof.
  apply (import_into_handle_once (build := debug_build) resources_world 9 6).
  reflexivity.
Defined.

Lemma unique_handles_clear {build : Build} (m : gmap Z Z) (a : Z) :
  unique_handles m → unique_handles (<[a := ResourceImportBase.invalid]> m).
Proof.
  intros Huniq a1 a2 h H1 H2 Hh.
  apply lookup_insert_Some in H1 as [[<- <-]|[Hne1 H1]]; [done|].
  apply lookup_insert_Some in H2 as [[<- <-]|[Hne2 H2]]; [done|].
  by eapply Huniq.
Qed.

Lemma unique_handles_transfer {build : Build} (m : gmap Z Z) (this r hs : Z) :
  unique_handles m → m !! r = Some hs →
  unique_handles (<[r := ResourceImportBase.invalid]> (<[this := hs]> m)).
Proof.
  intros Huniq Hr a1 a2 h H1 H2 Hh.
  apply lookup_insert_Some in H1 as [[? ?]|[Hne1 H1]]; [congruence|].
  apply lookup_insert_Some in H2 as [[? ?]|[Hne2 H2]]; [congruence|].
  apply lookup_insert_Some in H1 as [[? ?]|[Hne1' H1]];
    apply lookup_insert_Some in H2 as [[? ?]|[Hne2' H2]]; subst.
  - done.
  - exfalso. apply Hne2. symmetry. by eapply Huniq.
  - exfalso. apply Hne1. symmetry. by eapply Huniq.
  - by eapply Huniq.
Qed.

(** X19: moving never duplicates a handle.  Where no handle other than the
    sentinel is held by two imported resources, the same is true after the
    move constructor, after [into_handle()], and after move assignment
    whenever it returns, whatever the build. *)
Theorem import_moves_keep_handles_unique {build : Build} (w : world) (this r hs : Z) :
  unique_handles (imports w) →
  imports w !! r = Some hs →
  (∃ w', ResourceImportBase.move_ctor this r w = Ret tt w'
         ∧ unique_handles (imports w'))
  ∧ (∃ w', ResourceImportBase.into_handle r w = Ret hs w'
           ∧ unique_handles (imports w'))
  ∧ (∀ w', ResourceImportBase.operator_assign this r w = Ret tt w' →
           unique_handles (imports w')).
Proof.
  intros Huniq Hr. repeat split.
  - destruct (decide (this = r)) as [->|Hne]; unfold_import; unfold_monad; exec;
      (eexists; split; [reflexivity|]); cbn; by apply unique_handles_transfer.
  - unfold_import. unfold_monad. exec. eexists. split; [reflexivity|].
    cbn. by apply unique_handles_clear.
  - intros w'. unfold_import. unfold_monad.
    destruct (imports w !! this) as [hd|] eqn:Hthis; cbn; [|done].
    destruct (decide (this = r)) as [->|Hne].
    + destruct NDEBUG; [|destruct (hd =? ResourceImportBase.invalid)]; exec;
        try done; intros [= <-]; cbn; by apply unique_handles_transfer.
    + destruct NDEBUG; [|destruct (hd =? ResourceImportBase.invalid)]; exec;
        try done; intros [= <-]; cbn; by apply unique_handles_transfer.
Qed.

Lemma resources_world_unique :
  unique_handles (build := debug_build) (imports resources_world).
Proof.
  intros a1 a2 h H1 H2 Hh. cbn in H1, H2.
  repeat (apply lookup_insert_Some in H1 as [[? ?]|[? H1]]);
    repeat (apply lookup_insert_Some in H2 as [[? ?]|[? H2]]);
    rewrite ?lookup_empty in *; subst; done.
Qed.

Lemma import_moves_keep_handles_unique_witness :
  ∃ w', ResourceImportBase.move_ctor (build := debug_build) 10 9 resources_world = Ret tt w'
        ∧ unique_handles (build := debug_build) (imports w').
Proof.
  destruct (import_moves_keep_handles_unique (build := debug_build) resources_world 10 9 6
              resources_world_unique eq_refl) as (Hmove & _).
  exact Hmove.
Defined.

(** X20: [set_handle] can duplicate a handle, which no move does: when
    another imported resource holds [h], and [h] is not the sentinel, then
    after [set_handle(h)] two resources hold [h]. *)
Theorem set_handle_can_duplicate {build : Build} (w : world) (this other old h : Z) :
  this ≠ other →
  h ≠ ResourceImportBase.invalid →
  imports w !! this = Some old →
  imports w !! other = Some h →
  ∃ w', ResourceImportBase.set_handle this h w = Ret tt w'
        ∧ ResourceImportBase.get_handle this w' = Ret h w'
        ∧ ResourceImportBase.get_handle other w' = Ret h w'
        ∧ ¬ unique_handles (imports w').
Proof.
  intros Hne Hh Hthis Hother. unfold_import. unfold_monad. exec.
  eexists. split; [reflexivity|]. exec. repeat split.
  intros Huniq. apply Hne.
  apply (Huniq this other h); [apply lookup_insert_eq | by rewrite lookup_insert_ne | done].
Qed.

Lemma set_handle_can_duplicate_witness :
  ∃ w', ResourceImportBase.set_handle 8 6 resources_world = Ret tt w'
        ∧ ResourceImportBase.get_handle 8 w' = Ret 6 w'
        ∧ ResourceImportBase.get_handle 9 w' = Ret 6 w'
        ∧ ¬ unique_handles (build := debug_build) (imports w').
Proof.
  apply (set_handle_can_duplicate (build := debug_build) resources_world 8 9 5 6);
    [discriminate | discriminate | reflexivity | reflexivity].
Defined.

Lemma touches_only_imports_ret {A} (a : A) : touches_only_imports (mret a).
Proof. intros w a' w' E. injection E as _ <-. by repeat split. Qed.

Lemma touches_only_imports_bind {A B} (m : M A) (k : A → M B) :
  touches_only_imports m → (∀ a, touches_only_imports (k a)) →
  touches_only_imports (m ≫= k).
Proof.
  intros Hm Hk w b w'. unfold mbind, M_bind.
  destruct (m w) as [a w1|] eqn:Hmw; [|done]. intros Hkw.
  destruct (Hm w a w1 Hmw) as (? & ? & ? & ? & ? & ?).
  destruct (Hk a w1 b w' Hkw) as (? & ? & ? & ? & ? & ?).
  repeat split; congruence.
Qed.

Lemma touches_only_imports_modify (f : gmap Z Z → gmap Z Z) :
  touches_only_imports (modify (set_imports f)).
Proof. intros w a w' E. unfold modify in E. injection E as _ <-. by repeat split. Qed.

Lemma touches_only_imports_load {build : Build} (this : Z) :
  touches_only_imports (ResourceImportBase.load_handle this).
Proof.
  intros w a w'. unfold ResourceImportBase.load_handle.
  destruct (imports w !! this); [|done]. intros E. injection E as _ <-. by repeat split.
Qed.

Lemma touches_only_imports_assert {build : Build} (c : bool) :
  touches_only_imports (assert c).
Proof.
  unfold assert. destruct NDEBUG; [apply touches_only_imports_ret|].
  destruct c; [apply touches_only_imports_ret | by intros w a w'].
Qed.

(** X21: no operation of [ResourceImportBase] reaches outside the imported
    resources: whenever one returns, it has made no call (so none that
    would release a handle at the host), and the allocator's blocks, the
    memory and all other objects are as before. *)
Theorem import_methods_touch_only_imports {build : Build} (this r h : Z) (oh : option Z) :
  touches_only_imports (ResourceImportBase.ctor this oh)
  ∧ touches_only_imports (ResourceImportBase.move_ctor this r)
  ∧ touches_only_imports (ResourceImportBase.set_handle this h)
  ∧ touches_only_imports (ResourceImportBase.get_handle this)
  ∧ touches_only_imports (ResourceImportBase.into_handle this)
  ∧ touches_only_imports (ResourceImportBase.operator_assign this r).
Proof.
  unfold ResourceImportBase.operator_assign, ResourceImportBase.move_ctor,
    ResourceImportBase.ctor, ResourceImportBase.set_handle, ResourceImportBase.get_handle,
    ResourceImportBase.into_handle, ResourceImportBase.store_handle, ResourceImportBase.init.
  repeat apply conj;
    repeat first
      [ apply touches_only_imports_bind; [|intros ?]
      | apply touches_only_imports_modify
      | apply touches_only_imports_load
      | apply touches_only_imports_assert
      | apply touches_only_imports_ret ].
Qed.

(** X22: a destination that was default-constructed, or emptied by
    [into_handle()], takes a move assignment in every build, with [assert]
    live or not: the destination then holds the source's handle and the
    source holds the sentinel. *)
Theorem empty_destination_accepts_assignment {build : Build}
    (w : world) (this r hd hs : Z) :
  this ≠ r →
  imports w !! r = Some hs →
  (∃ w', (ResourceImportBase.ctor this None;;
          ResourceImportBase.operator_assign this r) w = Ret tt w'
         ∧ ResourceImportBase.get_handle this w' = Ret hs w'
         ∧ ResourceImportBase.get_handle r w' = Ret ResourceImportBase.invalid w')
  ∧ (imports w !! this = Some hd →
     ∃ w', (ResourceImportBase.into_handle this;;
            ResourceImportBase.operator_assign this r) w = Ret tt w'
           ∧ ResourceImportBase.get_handle this w' = Ret hs w'
           ∧ ResourceImportBase.get_handle r w' = Ret ResourceImportBase.invalid w').
Proof.
  intros Hne Hr.
  pose proof (Z.eqb_refl ResourceImportBase.invalid) as Hsent.
  split; [|intros Hthis]; unfold_import; unfold_monad; exec;
    destruct NDEBUG; exec; (eexists; split; [reflexivity|]); by exec.
Qed.

Lemma empty_destination_accepts_assignment_witness :
  ∃ w', (ResourceImportBase.into_handle (build := debug_build) 8;;
         ResourceImportBase.operator_assign (build := debug_build) 8 9) resources_world
        = Ret tt w'
        ∧ ResourceImportBase.get_handle 8 w' = Ret 6 w'
        ∧ ResourceImportBase.get_handle 9 w' = Ret (-1) w'.
Proof.
  destruct (empty_destination_accepts_assignment (build := debug_build) resources_world
              8 9 5 6 ltac:(discriminate) eq_refl) as [_ Hinto].
  exact (Hinto eq_refl).
Defined.
